(** * Gait-detection preprocessing: alignment, resampling and windowing

    A shallow embedding of [src/read_data.py] ([sync_data]) and of
    [src/preprocessing.py] ([movingstd], [resample], [data_windowing]),
    with the properties of the pipeline stated and proved against it.

    Conventions of the embedding.
    - A NumPy array indexed along its first axis is a [list]; a row of the
      N x 3 accelerometer array is a value of an arbitrary type.
    - Integer label codes are [Z].  Seconds, sampling rates and the
      real-valued outputs of [sync_data] and [data_windowing] are exact
      rationals [Q]: the binary64 rounding of NumPy is not represented,
      nor is the wrap-around of int64 (the codes are small clinical
      scores).  [movingstd] and [resample] are written over an arbitrary
      carrier of floating-point numbers with its operations.
    - A Python exception is a value [Raise e] of the [result] type.
    - The one array that the code writes into ([inclusion_idx] of
      [data_windowing]) lives in a store of arrays addressed by
      references, so that aliasing with the caller's array is visible. *)

From Stdlib Require Import ZArith QArith Qround String Ascii List Lia Bool.
From stdpp Require Import base option list sorting gmap strings.

Local Open Scope Z_scope.

(** ** Python values shared by both source files *)

Module Py.

(** The exceptions that the modelled code can raise.  [AxisError] is
    NumPy's (a subclass of [ValueError] and of [IndexError]);
    [DanglingReference] is the embedding's own, for a reference that is
    not in the store, which no Python program can hold. *)
Inductive py_error : Type :=
| ValueError
| ZeroDivisionError
| AxisError
| IndexError
| UnboundLocalError
| DanglingReference.

Inductive result (A : Type) : Type :=
| Ok (a : A)
| Raise (e : py_error).
Arguments Ok {A} a.
Arguments Raise {A} e.

(** [int(x)] on a real number: truncation towards zero. *)
Definition py_int (x : Q) : Z := Z.quot (Qnum x) (Z.pos (Qden x)).

(** Normalisation of a slice bound [k] against a sequence of length
    [len]: a negative bound counts from the end, and the result is
    clamped to [0 .. len]. *)
Definition slice_bound (k : Z) (len : nat) : nat :=
  if k <? 0 then Z.to_nat (Z.max 0 (Z.of_nat len + k))
  else Z.to_nat (Z.min k (Z.of_nat len)).

(** [xs[k:]] *)
Definition slice_from {A} (k : Z) (xs : list A) : list A :=
  drop (slice_bound k (length xs)) xs.

(** [xs[:k]] *)
Definition slice_to {A} (k : Z) (xs : list A) : list A :=
  take (slice_bound k (length xs)) xs.

(** [range(n)] *)
Definition range (n : nat) : list Z := seqZ 0 (Z.of_nat n).

(** Sequencing of computations that may raise. *)
#[global] Instance result_ret : MRet result := fun A a => Ok a.
#[global] Instance result_bind : MBind result := fun A B f m =>
  match m with
  | Ok a => f a
  | Raise e => Raise e
  end.

(** Strict comparison of two rationals. *)
Definition Qltb (x y : Q) : bool := Qnum x * QDen y <? Qnum y * QDen x.

End Py.
Import Py.

(** ** [src/read_data.py] *)

Module ReadData.

Record synced (A : Type) : Type := mk_synced {
  acc_data_sync : list A;
  label_data_sync : list Z;
  chorea_labels_sync : list Z;
  time_data_sync : list Q
}.
Arguments mk_synced {A} _ _ _ _.
Arguments acc_data_sync {A} _.
Arguments label_data_sync {A} _.
Arguments chorea_labels_sync {A} _.
Arguments time_data_sync {A} _.

(** [sync_data(acc_data, label_data, chorea_labels, sync_sec,
    ACC_SAMPLE_RATE)].  [sync_sec] is the pair (video anchor, sensor
    anchor) in seconds: [sync_sec[0]] belongs to the label stream and
    [sync_sec[1]] to the signal.  Both bounds of the slices are
    non-negative, so no slice counts from the end.  (With a rate of 0
    NumPy fills the time axis with inf and nan; the rationals give 0.) *)
Definition sync_data {A} (acc_data : list A) (label_data chorea_labels : list Z)
    (sync_sec : Q * Q) (ACC_SAMPLE_RATE : Q) : synced A :=
  let acc_time_before_sync_event := py_int (ACC_SAMPLE_RATE * snd sync_sec) in
  let label_time_before_sync_event := py_int (ACC_SAMPLE_RATE * fst sync_sec) in
  let acc_data :=
    slice_from (Z.max 0 (acc_time_before_sync_event - label_time_before_sync_event))
               acc_data in
  let video_first_index :=
    Z.max 0 (label_time_before_sync_event - acc_time_before_sync_event) in
  let label_data := slice_from video_first_index label_data in
  let chorea_labels := slice_from video_first_index chorea_labels in
  (* trim the end *)
  let acc_data := slice_to (Z.of_nat (length label_data)) acc_data in
  let video_first_sec := (inject_Z video_first_index / ACC_SAMPLE_RATE)%Q in
  let time_data :=
    map (fun i => (inject_Z i / ACC_SAMPLE_RATE + video_first_sec)%Q)
        (range (length label_data)) in
  mk_synced acc_data label_data chorea_labels time_data.

(** The two anchors converted to sample counts, and their difference
    [d = signal_anchor_samples - label_anchor_samples]. *)
Definition signal_anchor_samples (sync_sec : Q * Q) (rate : Q) : Z :=
  py_int (rate * snd sync_sec).
Definition label_anchor_samples (sync_sec : Q * Q) (rate : Q) : Z :=
  py_int (rate * fst sync_sec).
Definition anchor_diff (sync_sec : Q * Q) (rate : Q) : Z :=
  signal_anchor_samples sync_sec rate - label_anchor_samples sync_sec rate.

End ReadData.

(** ** [src/preprocessing.py] *)

Module Preprocessing.

(** *** Floating-point carrier *)

(** The scalar operations of binary64 that the module uses, over an
    arbitrary carrier [F].  Nothing is assumed about them. *)
Class Float64 (F : Type) : Type := {
  f_of_Z : Z -> F;
  f_add : F -> F -> F;
  f_sub : F -> F -> F;
  f_mul : F -> F -> F;
  f_div : F -> F -> F;
  f_sqrt : F -> F;
  (** [np.round(x)] followed by [astype(int)] *)
  f_round_int : F -> Z
}.

Section NumPy.
Context {F : Type} `{Float64 F}.

Definition np_sum (a : list F) : F := foldl f_add (f_of_Z 0) a.

Definition np_mean (a : list F) : F :=
  f_div (np_sum a) (f_of_Z (Z.of_nat (length a))).

(** [np.std(a)]: square root of the mean squared deviation. *)
Definition np_std (a : list F) : F :=
  let m := np_mean a in
  f_sqrt (np_mean (map (fun x => f_mul (f_sub x m) (f_sub x m)) a)).

Definition np_ones (n : Z) : list F := replicate (Z.to_nat n) (f_of_Z 1).

(** Entry [j] of the full discrete convolution of [a] and [v]. *)
Definition convolve_at (a v : list F) (j : nat) : F :=
  np_sum (omap (fun i => x ← a !! i; y ← v !! (j - i)%nat; Some (f_mul x y))
               (seq 0 (S j))).

(** [np.convolve(a, v, mode='same')]: the centred part of the full
    convolution, as long as the longer argument. *)
Definition np_convolve_same (a v : list F) : list F :=
  let n := Nat.max (length a) (length v) in
  let m := Nat.min (length a) (length v) in
  map (fun j => convolve_at a v (j + (m - 1) / 2)%nat) (seq 0 n).

End NumPy.

(** *** [movingstd] *)

(** [str.lower()] on ASCII text. *)
Definition lower_ascii (c : ascii) : ascii :=
  let n := nat_of_ascii c in
  if ((65 <=? n)%nat && (n <=? 90)%nat)%bool then ascii_of_nat (n + 32) else c.

Fixpoint lower (s : string) : string :=
  match s with
  | EmptyString => EmptyString
  | String c s' => String (lower_ascii c) (lower s')
  end.

Definition valid : list string := ["central"; "forward"; "backward"]%string.

Section MovingStd.
Context {F : Type} `{Float64 F}.

(** Element-wise arithmetic of arrays, and of an array with a scalar. *)
Definition arr_sq (a : list F) : list F := map (fun x => f_mul x x) a.
Definition arr_sqrt (a : list F) : list F := map f_sqrt a.
Definition arr_sub (a b : list F) : list F := zip_with f_sub a b.
Definition arr_sub_s (a : list F) (c : F) : list F := map (fun x => f_sub x c) a.
Definition arr_mul_s (a : list F) (c : F) : list F := map (fun x => f_mul x c) a.
Definition arr_div_s (a : list F) (c : F) : list F := map (fun x => f_div x c) a.

(** [np.sqrt(data[:, 0] ** 2 + data[:, 1] ** 2 + data[:, 2] ** 2)] *)
Definition magnitude (data : list (F * F * F)) : list F :=
  map (fun '(x, y, z) =>
         f_sqrt (f_add (f_add (f_mul x x) (f_mul y y)) (f_mul z z))) data.

(** [movingstd(data, window_size, windowmode)].  [data] is the N x 3
    array, one triple per sample; the two [isinstance] tests hold by
    typing. *)
Definition movingstd (data : list (F * F * F)) (window_size : Z)
    (windowmode : string) : result (list F) :=
  (* Check for valid windowmode *)
  if negb (bool_decide (lower windowmode ∈ valid)) then Raise ValueError else
  let windowmode := lower windowmode in
  (* Check for valid k *)
  let n := Z.of_nat (length data) in
  if window_size <? 1 then Raise ValueError else
  if (String.eqb windowmode "central" && (window_size <? 1))%bool
  then Raise ValueError else
  if ((negb (String.eqb windowmode "central") && (window_size <? 2))
      || (n <? window_size))%bool
  then Raise ValueError else
  (* Compute the data's magnitudes *)
  let data := magnitude data in
  (* Center and scale the data to improve numerical analysis *)
  let data := arr_sub_s data (np_mean data) in
  let data_std := np_std data in
  let data := arr_div_s data data_std in
  (* Compute squared elements *)
  let data2 := arr_sq data in
  (* Compute moving standard deviation *)
  if String.eqb windowmode "central" then
    let B := np_ones (2 * window_size + 1) in
    let s :=
      arr_sqrt
        (arr_div_s
           (arr_sub (np_convolve_same data2 B)
                    (arr_mul_s (arr_sq (np_convolve_same data B))
                               (f_div (f_of_Z 1) (f_of_Z (2 * window_size + 1)))))
           (f_of_Z (2 * window_size))) in
    Ok (arr_mul_s s data_std)
  else if String.eqb windowmode "forward" then
    let B := np_ones window_size in
    let s :=
      arr_sqrt
        (arr_div_s
           (arr_sub (np_convolve_same data2 B)
                    (arr_mul_s (arr_sq (np_convolve_same data B))
                               (f_div (f_of_Z 1) (f_of_Z window_size))))
           (f_of_Z (window_size - 1))) in
    Ok (arr_mul_s s data_std)
  else if String.eqb windowmode "backward" then
    let B := np_ones window_size in
    let s :=
      arr_sqrt
        (arr_div_s
           (arr_sub (np_convolve_same data2 B)
                    (arr_mul_s (arr_sq (np_convolve_same data B))
                               (f_div (f_of_Z 1) (f_of_Z window_size))))
           (f_of_Z (window_size - 1))) in
    Ok (arr_mul_s s data_std)
  else Raise UnboundLocalError.

End MovingStd.

(** A non-empty contraction (prefix) of one of the three mode words,
    case ignored: what the docstring of [movingstd] announces as valid. *)
Definition is_contraction (windowmode : string) : Prop :=
  windowmode <> EmptyString /\
  exists w, w ∈ valid /\ String.prefix (lower windowmode) w = true.

(** *** [resample] *)

(** [scipy.signal.resample(x, num)], Fourier resampling along the first
    axis, is library code: it is a parameter of the embedding. *)
Class SciPySignal : Type := {
  signal_resample : forall {X : Type}, list X -> Z -> result (list X)
}.

(** What the library documents about it: the result has [num] samples,
    and a non-empty input with a positive [num] is accepted. *)
Definition resample_contract `{SciPySignal} : Prop :=
  (forall (X : Type) (x : list X) (num : Z) (y : list X),
      signal_resample x num = Ok y -> length y = Z.to_nat num) /\
  (forall (X : Type) (x : list X) (num : Z),
      x <> [] -> 0 < num -> exists y, signal_resample x num = Ok y).

Section Resample.
Context {F : Type} `{Float64 F} `{SciPySignal}.

(** [resample(data, labels, chorea, original_fs, target_fs)] *)
Definition resample {A} (data : list A) (labels chorea : list Z)
    (original_fs target_fs : Q) : result (list A * list Z * list Z) :=
  (* calculate resampling factor *)
  if Qeq_bool target_fs 0 then Raise ZeroDivisionError else
  let resampling_factor := (original_fs / target_fs)%Q in
  (* calculate number of samples in the resampled data and labels *)
  if Qeq_bool resampling_factor 0 then Raise ZeroDivisionError else
  let num_samples :=
    py_int (inject_Z (Z.of_nat (length data)) / resampling_factor) in
  resampled_data ← signal_resample data num_samples;
  (* Resample the labels to match the new length of the resampled data *)
  resampled_labels ← signal_resample (map f_of_Z labels) num_samples;
  let resampled_labels := map f_round_int resampled_labels in
  resampled_chorea ← signal_resample (map f_of_Z chorea) num_samples;
  let resampled_chorea := map f_round_int resampled_chorea in
  Ok (resampled_data, resampled_labels, resampled_chorea).

End Resample.

(** *** Arrays held by reference *)

Definition loc : Type := nat.
Abbreviation store := (gmap nat (list Z)).

(** A computation that reads and writes the store and may raise; the
    store survives an exception. *)
Definition M (A : Type) : Type := store -> result A * store.

#[global] Instance M_ret : MRet M := fun A a σ => (Ok a, σ).
#[global] Instance M_bind : MBind M := fun A B f m σ =>
  match m σ with
  | (Ok a, σ') => f a σ'
  | (Raise e, σ') => (Raise e, σ')
  end.

Definition raise {A} (e : py_error) : M A := fun σ => (Raise e, σ).
Definition lift {A} (r : result A) : M A := fun σ => (r, σ).

Definition read (l : loc) : M (list Z) := fun σ =>
  match σ !! l with
  | Some a => (Ok a, σ)
  | None => (Raise DanglingReference, σ)
  end.

Definition alloc (a : list Z) : M loc := fun σ =>
  let l := fresh (dom σ) in (Ok l, <[l := a]> σ).

Definition write (l : loc) (a : list Z) : M unit := fun σ =>
  (Ok tt, <[l := a]> σ).

(** [a[a == v]]: indexing with a boolean mask builds a new array. *)
Definition mask_eq_select (a : loc) (v : Z) : M loc :=
  x ← read a; alloc (filter (fun y => y = v) x).

(** [a[k:] = v]: assignment to a slice writes into the array itself. *)
Definition slice_from_assign (a : loc) (k v : Z) : M unit :=
  x ← read a;
  let b := slice_bound k (length x) in
  write a (take b x ++ replicate (length x - b) v).

(** *** [data_windowing] *)

(** [sliding_window_view(x, window, 0)]: every run of [window]
    consecutive samples, in order of its start. *)
Definition sliding_window_view {A} (x : list A) (window : Z) : result (list (list A)) :=
  if window <? 0 then Raise ValueError
  else if Z.of_nat (length x) <? window then Raise ValueError
  else Ok (map (fun i => take (Z.to_nat window) (drop i x))
               (seq 0 (length x - Z.to_nat window + 1))).

(** Entries [0, step, 2*step, ...] of [xs]. *)
Definition every_nth {A} (step : nat) (xs : list A) : list A :=
  omap (fun i => xs !! (i * step)%nat)
       (seq 0 ((length xs + step - 1) / step)).

(** [xs[::step]] *)
Definition strided {A} (step : Z) (xs : list A) : result (list A) :=
  if step =? 0 then Raise ValueError
  else if 0 <? step then Ok (every_nth (Z.to_nat step) xs)
  else Ok (every_nth (Z.to_nat (- step)) (reverse xs)).

(** A (k, W) array of codes after [.squeeze()]: axes of extent 1 vanish. *)
Inductive squeezed : Type :=
| Sq0 (x : Z)
| Sq1 (xs : list Z)
| Sq2 (rows : list (list Z)).

Definition squeeze (rows : list (list Z)) (W : Z) : squeezed :=
  match rows with
  | [r] => match r with
           | [x] => Sq0 x
           | _ => Sq1 r
           end
  | _ => if W =? 1 then Sq1 (concat rows) else Sq2 rows
  end.

(** [a.shape[0]] *)
Definition shape0 (a : squeezed) : result Z :=
  match a with
  | Sq0 _ => Raise IndexError
  | Sq1 xs => Ok (Z.of_nat (length xs))
  | Sq2 rows => Ok (Z.of_nat (length rows))
  end.

(** The rows over which a reduction with [axis=1] runs. *)
Definition axis1 (a : squeezed) : result (list (list Z)) :=
  match a with
  | Sq2 rows => Ok rows
  | _ => Raise AxisError
  end.

Definition sumZ (xs : list Z) : Z := foldr Z.add 0 xs.

Definition count (x : Z) (row : list Z) : Z :=
  sumZ (map (fun y => Z.b2z (y =? x)) row).

(** [np.unique]: the distinct values, ascending. *)
Definition np_unique (xs : list Z) : list Z := merge_sort Z.le (remove_dups xs).

(** [scipy.stats.mode(a, axis=1)[0]]: every distinct value of the array
    is tried in ascending order, and a row keeps the first one whose
    count in the row strictly exceeds the best count so far. *)
Definition mode_step (row : list Z) (best : Z * Z) (score : Z) : Z * Z :=
  let '(oldmostfreq, oldcounts) := best in
  let counts := count score row in
  (if oldcounts <? counts then score else oldmostfreq, Z.max counts oldcounts).

Definition mode (a : list (list Z)) : list Z :=
  let scores := np_unique (concat a) in
  map (fun row => fst (foldl (mode_step row) (0, 0) scores)) a.

Record windowed (A : Type) : Type := mk_windowed {
  windowed_data_all : list (list A);
  windowed_labels_all : list Z;
  windowed_chorea_all : list Q;
  inclusion_idx : loc;
  NumWin : Z
}.
Arguments mk_windowed {A} _ _ _ _ _.
Arguments windowed_data_all {A} _.
Arguments windowed_labels_all {A} _.
Arguments windowed_chorea_all {A} _.
Arguments inclusion_idx {A} _.
Arguments NumWin {A} _.

(** [data_windowing(data, labels, chorea, window_size, window_overlap,
    std_idx)].  A window of the signal is kept as its [window_size]
    samples in time order (NumPy stores it channel-major, 3 x W); the
    float arrays of codes that [np.append] returns are kept as the
    integers they hold.  [mode] is the one of SciPy before 1.11, which
    keeps the reduced axis. *)
Definition data_windowing {A} (data : list A) (labels chorea : list Z)
    (window_size window_overlap : Z) (std_idx : loc) : M (windowed A) :=
  (* Create an empty array to hold the windowed data *)
  _ ← (if window_size <? 0 then raise ValueError else mret tt);
  (* Number of seconds that are not overlap between neighboring windows *)
  let non_overlap := window_size - window_overlap in
  (* Create vector that indicate which part of the data was removed *)
  inclusion_idx ← mask_eq_select std_idx 1;
  (* The upper limit *)
  upper_limit ←
    (if non_overlap =? 0 then raise ZeroDivisionError
     else mret (Z.of_nat (length data) / non_overlap * non_overlap));
  (* Remove the end of the signal *)
  _ ← slice_from_assign inclusion_idx (upper_limit - window_overlap) 0;
  (* Use sliding windows to divide the data *)
  windowed_data ←
    lift (v ← sliding_window_view data window_size; strided non_overlap v);
  windowed_labels ←
    lift (v ← sliding_window_view labels window_size;
          w ← strided non_overlap v; mret (squeeze w window_size));
  windowed_chorea ←
    lift (v ← sliding_window_view chorea window_size;
          w ← strided non_overlap v; mret (squeeze w window_size));
  NumWin ← lift (shape0 windowed_labels);
  (* Assign the mode label as the label for each window *)
  chorea_rows ← lift (axis1 windowed_chorea);
  let chorea_valid_samples :=
    map (fun row => sumZ (map (fun x => Z.b2z (0 <=? x)) row)) chorea_rows in
  let windowed_chorea_sum :=
    map (fun row => sumZ (map (fun x => x * Z.b2z (0 <=? x)) row)) chorea_rows in
  let windowed_chorea :=
    zip_with (fun s c =>
                if Qltb (inject_Z window_size / 2) (inject_Z c)
                then (inject_Z s / inject_Z c)%Q else (-1)%Q)
             windowed_chorea_sum chorea_valid_samples in
  label_rows ← lift (axis1 windowed_labels);
  let windowed_labels := mode label_rows in
  (* Concatenate: an empty window leaves [mode] with an empty result,
     which [np.append] cannot join to the (0, 1) array *)
  _ ← (if window_size =? 0 then raise ValueError else mret tt);
  mret (mk_windowed windowed_data windowed_labels windowed_chorea
                    inclusion_idx NumWin).

(** *** The vocabulary of the specification *)

(** Window [i] of a stream: [W] consecutive samples from index
    [i * stride] on. *)
Definition window_at {A} (W stride : Z) (i : nat) (xs : list A) : list A :=
  take (Z.to_nat W) (drop (i * Z.to_nat stride) xs).

(** The number of windows that [data_windowing] cuts out of [N] samples. *)
Definition window_count (N : nat) (W O : Z) : nat :=
  Z.to_nat ((Z.of_nat N - O) / (W - O)).

Definition occurrences (x : Z) (w : list Z) : nat :=
  length (filter (fun y => y = x) w).

(** [m] is the statistical mode of [w], the lowest one when several
    values are equally frequent. *)
Definition lowest_mode (w : list Z) (m : Z) : Prop :=
  m ∈ w /\
  forall x, x ∈ w ->
    (occurrences x w <= occurrences m w)%nat /\
    (occurrences x w = occurrences m w -> m <= x).

(** The per-sample codes that take part in the majority vote when the
    reserved code -9 is left out of it. *)
Definition without_ambiguous (w : list Z) : list Z :=
  filter (fun y => y <> -9) w.


Definition mean (xs : list Z) : Q :=
  (inject_Z (sumZ xs) / inject_Z (Z.of_nat (length xs)))%Q.

(** The array that [data_windowing] returns as [inclusion_idx]: the
    entries of the mask equal to 1, zeroed from [upper_limit - overlap]
    on. *)
Definition excluded_tail (mask : list Z) (N : nat) (W O : Z) : list Z :=
  let ones := filter (fun y => y = 1) mask in
  let b := slice_bound (Z.of_nat N / (W - O) * (W - O) - O) (length ones) in
  take b ones ++ replicate (length ones - b) 0.

(** The severity that [data_windowing] gives to one window of codes. *)
Definition row_severity (window_size : Z) (row : list Z) : Q :=
  let c := sumZ (map (fun x => Z.b2z (0 <=? x)) row) in
  let s := sumZ (map (fun x => x * Z.b2z (0 <=? x)) row) in
  if Qltb (inject_Z window_size / 2) (inject_Z c)
  then (inject_Z s / inject_Z c)%Q else (-1)%Q.

(** *** Carriers on which the definitions run *)

(** Rationals as floating-point numbers: every operation returns a
    fraction in lowest terms, the square root is a fixed-point one (six
    decimal digits) and halves are rounded to even. *)
Definition Qsqrt_fixed (q : Q) : Q :=
  Qred (Z.sqrt (Qnum q * Z.pos (Qden q) * 10 ^ 12) # (Qden q * 10 ^ 6)).

Definition Qround_half_even (q : Q) : Z :=
  let fl := Qfloor q in
  let twice := Qfloor (2 * q) in
  if twice =? 2 * fl then fl
  else if Qeq_bool (2 * q) (inject_Z twice) then (if Z.even fl then fl else fl + 1)
  else fl + 1.

Definition Q_float64 : Float64 Q := {|
  f_of_Z := inject_Z;
  f_add := fun x y => Qred (x + y);
  f_sub := fun x y => Qred (x - y);
  f_mul := fun x y => Qred (x * y);
  f_div := fun x y => Qred (x / y);
  f_sqrt := Qsqrt_fixed;
  f_round_int := Qround_half_even
|}.

(** A resampler with the documented shape of [scipy.signal.resample]:
    it rejects an empty input or request and otherwise picks, for each of
    the [num] outputs, the input sample at the same relative position. *)
Definition nearest_resample {X : Type} (x : list X) (num : Z) : result (list X) :=
  if ((num <=? 0) || (Z.of_nat (length x) =? 0))%bool then Raise ValueError
  else Ok (omap (fun i => x !! (i * length x / Z.to_nat num)%nat)
                (seq 0 (Z.to_nat num))).

Definition nearest_signal : SciPySignal := {|
  signal_resample := @nearest_resample
|}.

End Preprocessing.

(** ** [src/read_data.py]: the readers and the driver *)

Module ReadDataFiles.
Import ReadData Preprocessing.

(** The exceptions of the readers: the ones of [py_error], a failed
    [assert], an exhausted iterator and a subscript applied to [None]. *)
Inductive exn : Type :=
| PyError (e : py_error)
| AssertionError
| StopIteration
| TypeError.

Inductive outcome (A : Type) : Type :=
| Done (a : A)
| Fail (e : exn).
Arguments Done {A} a.
Arguments Fail {A} e.

#[global] Instance outcome_ret : MRet outcome := fun A a => Done a.
#[global] Instance outcome_bind : MBind outcome := fun A B f m =>
  match m with
  | Done a => f a
  | Fail e => Fail e
  end.

(** [for x in xs: s = f(s, x)], stopping at the first exception. *)
Fixpoint for_each {S X : Type} (f : S -> X -> outcome S) (xs : list X) (s : S)
    : outcome S :=
  match xs with
  | [] => Done s
  | x :: xs' =>
      match f s x with
      | Done s' => for_each f xs' s'
      | Fail e => Fail e
      end
  end.

(** The built-in [int] on text is a parameter: [None] stands for its
    [ValueError]. *)
Class PyInt : Type := { int_of_str : string -> option Z }.

(** *** [create_dictionary_from_excel] *)

(** [name.split('_')[0]]: the text before the first underscore. *)
Fixpoint before_underscore (s : string) : string :=
  match s with
  | EmptyString => EmptyString
  | String c s' =>
      if Ascii.eqb c "_" then EmptyString else String c (before_underscore s')
  end.

(** A [dict] as the list of its items in insertion order.  [d[k] = v]
    replaces the value of a key that is present, in place, and appends a
    new key. *)
Fixpoint dict_set {V : Type} (k : string) (v : V) (d : list (string * V))
    : list (string * V) :=
  match d with
  | [] => [(k, v)]
  | (k', v') :: d' =>
      if String.eqb k' k then (k', v) :: d' else (k', v') :: dict_set k v d'
  end.

(** [dict(pairs)] *)
Definition dict_of {V : Type} (pairs : list (string * V)) : list (string * V) :=
  foldl (fun d kv => dict_set (fst kv) (snd kv) d) [] pairs.

(** [d.get(k)] *)
Definition dict_get {V : Type} (k : string) (d : list (string * V)) : option V :=
  snd <$> List.find (fun kv => String.eqb (fst kv) k) d.

(** One row of the sheet: the video name and the three value columns
    (video start, sensor start, frames per second). *)
Definition sheet_row : Type := string * (Q * Q * Q).

(** [create_dictionary_from_excel], on the rows that pandas read. *)
Definition create_dictionary_from_excel (df : list sheet_row)
    : list (string * (Q * Q * Q)) :=
  let key_values := map (fun r => before_underscore (fst r)) df in
  let value_tuples := map snd df in
  dict_of (zip key_values value_tuples).

(** *** [read_acc_data] *)

(** [[row[1], row[2], row[3]]] of a row with [len(row) >= 4]. *)
Definition xyz (row : list string) : option (string * string * string) :=
  match row with
  | _ :: x :: y :: z :: _ => Some (x, y, z)
  | _ => None
  end.

(** [read_acc_data(patient)].  [file_names] is what [os.listdir] returns
    and [csv_rows name] the rows that [csv.reader] yields for that file,
    header included.  The columns stay text. *)
Definition read_acc_data (patient : string) (file_names : list string)
    (csv_rows : string -> list (list string))
    : outcome (option (list (string * string * string))) :=
  (* Find the file name that matches the given name *)
  let matching_file_name :=
    List.find (fun file_name => String.prefix (String.append patient "_") file_name)
              file_names in
  match matching_file_name with
  | None => Done None
  | Some file_name =>
      match csv_rows file_name with
      | [] => Fail StopIteration              (* next(csv_reader) *)
      | _ :: rows =>
          let data := omap xyz rows in
          match data with
          | [] => Done None
          | _ => Done (Some data)
          end
      end
  end.

(** *** [read_label_data] *)

(** An annotated interval: first frame, last frame, activity name. *)
Definition entry : Type := Z * Z * string.

(** [row[i]] *)
Definition index (row : list string) (i : nat) : outcome string :=
  match row !! i with
  | Some x => Done x
  | None => Fail (PyError IndexError)
  end.

Definition to_int `{PyInt} (s : string) : outcome Z :=
  match int_of_str s with
  | Some z => Done z
  | None => Fail (PyError ValueError)
  end.

(** [(int(row[2]), int(row[3]), row[4])] *)
Definition read_entry `{PyInt} (row : list string) : outcome entry :=
  a ← index row 2; first_frame ← to_int a;
  b ← index row 3; last_frame ← to_int b;
  activity_name ← index row 4;
  mret (first_frame, last_frame, activity_name).

(** The loop over the rows of the timeline, from a given value of
    [sections_counter] and given lists; it returns
    [(chorea_labels_by_frames, labels_by_frames)]. *)
Fixpoint read_rows `{PyInt} (rows : list (list string)) (sections_counter : Z)
    (chorea_labels_by_frames labels_by_frames : list entry)
    : outcome (list entry * list entry) :=
  match rows with
  | [] => Done (chorea_labels_by_frames, labels_by_frames)
  | row :: rows' =>
      match row with
      | [] => read_rows rows' sections_counter
                        chorea_labels_by_frames labels_by_frames
      | row0 :: _ =>
          if ((sections_counter <? 3) && String.eqb row0 "T")%bool then
            read_rows rows' (sections_counter + 1)
                      chorea_labels_by_frames labels_by_frames
          else
            match (if sections_counter =? 2
                   then (e ← read_entry row;
                         mret (chorea_labels_by_frames ++ [e]))
                   else mret chorea_labels_by_frames) with
            | Fail e => Fail e
            | Done chorea_labels_by_frames =>
                if sections_counter =? 3 then
                  if String.eqb row0 "T"
                  then Done (chorea_labels_by_frames, labels_by_frames)
                  else
                    match read_entry row with
                    | Fail e => Fail e
                    | Done e =>
                        read_rows rows' sections_counter
                                  chorea_labels_by_frames
                                  (labels_by_frames ++ [e])
                    end
                else
                  read_rows rows' sections_counter
                            chorea_labels_by_frames labels_by_frames
            end
      end
  end.

(** A section marker of the timeline, a row that is not one, and an
    annotation row (not empty, not a marker). *)
Definition marker (row : list string) : Prop := head row = Some "T"%string.
Definition unmarked (row : list string) : Prop := head row <> Some "T"%string.
Definition annotation (row : list string) : Prop := row <> [] /\ unmarked row.

#[global] Instance marker_dec (row : list string) : Decision (marker row) :=
  decide (head row = Some "T"%string).

Definition newline : string := String (ascii_of_nat 10) EmptyString.

Definition activity__dict : list (string * Z) :=
  [("walking", 1); ("turning", -9); ("turning ", -9);
   ("stumbling", -9); ("stepping to the side", 0); ("standing", 0);
   ("sitting", 0); ("siting down", 0); ("standing clapping hands", 0);
   ("sitting down", 0); ("sitting clapping hands", 0); ("sit to stand", 0);
   ("sitting and writing ", 0); ("sitting and driniking water", 0);
   ("sitting and writing", 0); ("standing up", 0);
   ("standing and clapping hands", 0);
   ("standing and putting arms crossed on the chest", 0);
   ("standing with arms crossed on the chest", 0);
   ("standing and putting the arms down", 0);
   ("standing and putting the hands down", 0); (EmptyString, 0);
   ("stepping on a foam", 0);
   ("standing and putting the arms crossed on the chest", 0);
   ("standing with arms crossed on the chesr", 0);
   ("standing and putting hands down", 0); ("stepping off the foam", 0);
   ("bending over", 0); ("sitting and clapping hands", 0);
   ("stepping up and down a step", 0); ("sitiing down", 0);
   ("moving hands up", 0); ("clapping hands", 0); ("moving hands down", 0);
   ("staidning up", 0); ("step ups", -9); ("stambling", 0);
   ("stepping over a step", 0); ("stending up", 0); ("stending", 0);
   ("stepping off of step", 0); ("standing off a step", 0);
   ("turning around", 0);
   (String.append "putting the arms crossed on the chest" newline, 0);
   ("walking backwards", 0); ("putting the arms crossed on the chest", 0);
   (String.append "arms crossed on the chest" newline, 0); ("-9", -9)].

(** [a[start:stop] = v] on an array of integers. *)
Definition slice_assign (start stop v : Z) (xs : list Z) : list Z :=
  let lo := slice_bound start (length xs) in
  let hi := slice_bound stop (length xs) in
  take lo xs ++ replicate (hi - lo) v ++ drop (Nat.max lo hi) xs.

(** [int(np.round(frame) * (target_sample_rate / source_sample_rate))]
    for an integer frame number. *)
Definition to_sample (frame : Z) (ratio : Q) : Z :=
  py_int (inject_Z frame * ratio).

(** The body of the loop over [labels_by_frames]: the name must be a
    key of the table, and only 'walking' writes. *)
Definition mark_walking (ratio : Q) (labels_array : list Z) (label_set : entry)
    : outcome (list Z) :=
  let '(first, last_frame, name) := label_set in
  if negb (bool_decide (name ∈ map fst activity__dict))
  then Fail AssertionError
  else if String.eqb name "walking" then
    let start_sample := to_sample first ratio in
    let end_sample := to_sample last_frame ratio in
    Done (slice_assign start_sample end_sample 1 labels_array)
  else Done labels_array.

(** The body of the loop over [chorea_labels_by_frames]. *)
Definition mark_chorea `{PyInt} (ratio : Q) (chorea_labels : list Z)
    (label_set : entry) : outcome (list Z) :=
  let '(first, last_frame, name) := label_set in
  let start_sample := to_sample first ratio in
  let end_sample := to_sample last_frame ratio in
  level ←
    (if bool_decide (name ∈ [EmptyString; "hided"%string])
     then Done (-1) else to_int name);
  Done (slice_assign start_sample end_sample level chorea_labels).

(** The second half of [read_label_data]: from the intervals to the two
    per-sample arrays.  A zero source rate raises as Python numbers do. *)
Definition label_arrays `{PyInt} (labels_by_frames chorea_labels_by_frames : list entry)
    (source_sample_rate target_sample_rate : Q)
    : outcome (option (list Z * list Z)) :=
  match last labels_by_frames with
  | None => Done None
  | Some (_, last_labeled_frame, _) =>
      if Qeq_bool source_sample_rate 0 then Fail (PyError ZeroDivisionError) else
      let ratio := (target_sample_rate / source_sample_rate)%Q in
      let last_labeled_frame_sample :=
        Qround_half_even (inject_Z last_labeled_frame * ratio) in
      if last_labeled_frame_sample + 1 <? 0 then Fail (PyError ValueError) else
      let labels_array := replicate (Z.to_nat (last_labeled_frame_sample + 1)) 0 in
      labels_array ← for_each (mark_walking ratio) labels_by_frames labels_array;
      let chorea_labels :=
        replicate (Z.to_nat (last_labeled_frame_sample + 1)) (-1) in
      chorea_labels ←
        for_each (mark_chorea ratio) chorea_labels_by_frames chorea_labels;
      Done (Some (labels_array, chorea_labels))
  end.

(** [read_label_data(patient, source_sample_rate, target_sample_rate)].
    [timeline] is the outcome of the search for the patient's timeline
    file: [None] when no folder or file matches, else the rows that
    [csv.reader] yields. *)
Definition read_label_data `{PyInt} (timeline : option (list (list string)))
    (source_sample_rate target_sample_rate : Q)
    : outcome (option (list Z * list Z)) :=
  match timeline with
  | None => Done None
  | Some rows =>
      '(chorea_labels_by_frames, labels_by_frames) ← read_rows rows 0 [] [];
      label_arrays labels_by_frames chorea_labels_by_frames
                   source_sample_rate target_sample_rate
  end.

(** *** [main] *)

Definition ACC_SAMPLE_RATE : Q := 100.

(** What [main] reads from the disk. *)
Record files : Type := mk_files {
  sync_sheet : list sheet_row;
  acc_file_names : list string;
  acc_csv_rows : string -> list (list string);
  label_timeline : string -> option (list (list string))
}.

(** One saved archive: its file name in the target folder and the four
    arrays. *)
Definition archive : Type := string * synced (string * string * string).

(** The loop of [main] over the items of the dictionary; [saved] collects
    the calls of [np.savez]. *)
Fixpoint main_loop `{PyInt} (fs : files) (items : list (string * (Q * Q * Q)))
    (saved : list archive) : outcome (list archive) :=
  match items with
  | [] => Done saved
  | (patient, val) :: items' =>
      let '(val0, val1, val2) := val in
      let sync_sec := (val0, val1) in
      let label_sample_rate := val2 in
      match read_acc_data patient (acc_file_names fs) (acc_csv_rows fs) with
      | Fail e => Fail e
      | Done acc_data =>
          match read_label_data (label_timeline fs patient)
                                label_sample_rate ACC_SAMPLE_RATE with
          | Fail e => Fail e
          | Done None => main_loop fs items' saved
          | Done (Some (label_data, chorea_labels)) =>
              match acc_data with
              | None => Fail TypeError
              | Some acc_data =>
                  let r := sync_data acc_data label_data chorea_labels
                                     sync_sec ACC_SAMPLE_RATE in
                  main_loop fs items'
                            (saved ++ [(String.append patient ".npz", r)])
              end
          end
      end
  end.

Definition main `{PyInt} (fs : files) : outcome (list archive) :=
  let sync_dict := create_dictionary_from_excel (sync_sheet fs) in
  main_loop fs sync_dict [].

(** What every archive that [main] writes satisfies: the label, severity
    and time arrays have one length, the signal is not longer, and the
    labels are 0 or 1. *)
Definition well_formed (a : archive) : Prop :=
  let r := snd a in
  length (chorea_labels_sync r) = length (label_data_sync r) /\
  length (time_data_sync r) = length (label_data_sync r) /\
  (length (acc_data_sync r) <= length (label_data_sync r))%nat /\
  (forall x, x ∈ label_data_sync r -> x = 0 \/ x = 1).

(** The patient of this item of the dictionary has labels: the condition
    under which [main] goes on to synchronise and save. *)
Definition labelled `{PyInt} (fs : files) (item : string * (Q * Q * Q)) : bool :=
  match read_label_data (label_timeline fs (fst item)) (snd (snd item))
                        ACC_SAMPLE_RATE with
  | Done (Some _) => true
  | _ => false
  end.

(** *** A parser on which the readers run *)

Definition digit_value (c : ascii) : option Z :=
  let n := nat_of_ascii c in
  if ((48 <=? n)%nat && (n <=? 57)%nat)%bool then Some (Z.of_nat n - 48) else None.

Fixpoint digits_value (s : string) (acc : Z) : option Z :=
  match s with
  | EmptyString => Some acc
  | String c s' =>
      match digit_value c with
      | Some d => digits_value s' (10 * acc + d)
      | None => None
      end
  end.

(** Plain decimal numerals with an optional minus sign: a part of what
    [int] accepts. *)
Definition decimal (s : string) : option Z :=
  match s with
  | EmptyString => None
  | String "-" (String c s') => Z.opp <$> digits_value (String c s') 0
  | String "-" EmptyString => None
  | _ => digits_value s 0
  end.

Definition decimal_int : PyInt := {| int_of_str := decimal |}.

(** A timeline in the layout of the annotation tool: a preamble, two
    sections that are not read, the severity section, the activity
    section, and a closing marker. *)
Definition example_timeline : list (list string) :=
  [ ["video"; "P1"];
    ["T"; "tiers"]; ["tier"; "chorea"]; [];
    ["T"; "notes"];
    ["c"; "0"; "0"; "30"; "2"]; ["c"; "0"; "30"; "60"; "hided"];
    ["T"; "activity"];
    ["a"; "0"; "0"; "30"; "standing"]; ["a"; "0"; "30"; "60"; "walking"];
    ["a"; "0"; "60"; "90"; "turning"];
    ["T"; "end"]; ["unread"] ]%string.

(** A disk with one patient that has a signal file and a timeline, and one
    that has neither. *)
Definition example_files : files := {|
  sync_sheet := [("P1_walk"%string, (1 # 100, 2 # 100, 30)%Q);
                 ("P2_walk"%string, (0, 0, 30)%Q)];
  acc_file_names := ["P10_right.csv"; "P1_right.csv"]%string;
  acc_csv_rows := fun _ =>
    [ ["t"; "x"; "y"; "z"]; ["0"; "1"; "2"; "3"]; ["1"; "2"];
      ["2"; "4"; "5"; "6"; "7"] ]%string;
  label_timeline := fun patient =>
    if String.eqb patient "P1" then Some example_timeline else None
|}.

End ReadDataFiles.

(** ** Properties of [sync_data] *)

Module ReadDataSpec.
Import ReadData.

Lemma slice_bound_nonneg (k : Z) (len : nat) :
  0 <= k -> slice_bound k len = Nat.min (Z.to_nat k) len.
Proof.
  intros Hk. unfold slice_bound.
  destruct (Z.ltb_spec k 0); lia.
Qed.

Lemma slice_from_nonneg {A} (k : Z) (xs : list A) :
  0 <= k -> slice_from k xs = drop (Z.to_nat k) xs.
Proof.
  intros Hk. unfold slice_from. rewrite slice_bound_nonneg by done.
  destruct (Nat.le_gt_cases (Z.to_nat k) (length xs)) as [Hle | Hgt].
  - by rewrite Nat.min_l.
  - rewrite Nat.min_r by lia.
    rewrite !drop_ge by lia. done.
Qed.

Lemma slice_to_length {A} (n : nat) (xs : list A) :
  slice_to (Z.of_nat n) xs = take n xs.
Proof.
  unfold slice_to. rewrite slice_bound_nonneg by lia.
  rewrite Nat2Z.id.
  destruct (Nat.le_gt_cases n (length xs)) as [Hle | Hgt].
  - by rewrite Nat.min_l.
  - rewrite Nat.min_r by lia.
    rewrite !take_ge by lia. done.
Qed.

Lemma py_int_mult_zero (rate q : Q) : (q == 0)%Q -> py_int (rate * q) = 0.
Proof.
  intros Hq. unfold py_int.
  assert (Qnum q = 0) as Hn.
  { unfold Qeq in Hq. simpl in Hq. lia. }
  simpl. rewrite Hn, Z.mul_0_r. apply Z.quot_0_l. lia.
Qed.

Lemma length_range (n : nat) : length (range n) = n.
Proof. unfold range. rewrite length_seqZ. lia. Qed.

(** The four streams that [sync_data] returns, with [d] the difference of
    the anchors in samples. *)
Lemma sync_data_unfold {A} (acc : list A) (label chorea : list Z)
    (sync_sec : Q * Q) (rate : Q) :
  let d := anchor_diff sync_sec rate in
  let r := sync_data acc label chorea sync_sec rate in
  label_data_sync r = drop (Z.to_nat (- d)) label /\
  chorea_labels_sync r = drop (Z.to_nat (- d)) chorea /\
  acc_data_sync r =
    take (length (drop (Z.to_nat (- d)) label)) (drop (Z.to_nat d) acc) /\
  length (time_data_sync r) = length (drop (Z.to_nat (- d)) label).
Proof.
  intros d r. subst d r.
  unfold sync_data, anchor_diff, signal_anchor_samples, label_anchor_samples.
  cbv zeta.
  set (a := py_int (rate * snd sync_sec)).
  set (l := py_int (rate * fst sync_sec)).
  cbn [acc_data_sync label_data_sync chorea_labels_sync time_data_sync].
  rewrite !slice_from_nonneg by lia.
  rewrite slice_to_length, length_map, length_range.
  replace (Z.to_nat (Z.max 0 (l - a))) with (Z.to_nat (- (a - l))) by lia.
  replace (Z.to_nat (Z.max 0 (a - l))) with (Z.to_nat (a - l)) by lia.
  done.
Qed.

(** Lengths of the outputs: the labels, the severities and the time axis
    keep everything after the left trim; the signal is cut to the label
    length only when it is the longer one. *)
Lemma sync_data_lengths {A} (acc : list A) (label chorea : list Z)
    (sync_sec : Q * Q) (rate : Q) :
  let d := anchor_diff sync_sec rate in
  let r := sync_data acc label chorea sync_sec rate in
  length (label_data_sync r) = (length label - Z.to_nat (- d))%nat /\
  length (chorea_labels_sync r) = (length chorea - Z.to_nat (- d))%nat /\
  length (time_data_sync r) = (length label - Z.to_nat (- d))%nat /\
  length (acc_data_sync r) =
    Nat.min (length label - Z.to_nat (- d)) (length acc - Z.to_nat d).
Proof.
  intros d r.
  destruct (sync_data_unfold acc label chorea sync_sec rate)
    as (Hl & Hc & Ha & Ht).
  fold d in Hl, Hc, Ha, Ht. fold r in Hl, Hc, Ha, Ht.
  rewrite Hl, Hc, Ha, Ht, length_take, !length_drop. done.
Qed.

(** When the label and severity streams have one length and the
    left-trimmed signal is at least as long as the left-trimmed labels,
    the four outputs have one length, bounded by both input lengths. *)
Lemma sync_data_lengths_signal_covers {A} (acc : list A) (label chorea : list Z)
    (sync_sec : Q * Q) (rate : Q) :
  let d := anchor_diff sync_sec rate in
  let r := sync_data acc label chorea sync_sec rate in
  length chorea = length label ->
  (length label - Z.to_nat (- d) <= length acc - Z.to_nat d)%nat ->
  length (acc_data_sync r) = length (label_data_sync r) /\
  length (chorea_labels_sync r) = length (label_data_sync r) /\
  length (time_data_sync r) = length (label_data_sync r) /\
  (length (label_data_sync r) <= Nat.min (length acc) (length label))%nat.
Proof.
  intros d r Hc Hcover.
  destruct (sync_data_lengths acc label chorea sync_sec rate)
    as (Hl & Hch & Ht & Ha).
  fold d in Hl, Hch, Ht, Ha. fold r in Hl, Hch, Ht, Ha.
  rewrite Hl, Hch, Ht, Ha. lia.
Qed.

(** The worked example of the specification: rate 100 Hz, signal anchor
    5.0 s, label anchor 3.0 s, 1000 signal samples and 750 label samples;
    200 samples leave the start of the signal and all four streams end
    up with 750 samples, the signal starting at its sample 200. *)
Example sync_data_anchor_example :
  let r := sync_data (seqZ 0 1000) (replicate 750 0) (replicate 750 (-1))
                     (3%Q, 5%Q) 100%Q in
  anchor_diff (3%Q, 5%Q) 100%Q = 200 /\
  length (acc_data_sync r) = 750%nat /\
  length (label_data_sync r) = 750%nat /\
  length (chorea_labels_sync r) = 750%nat /\
  length (time_data_sync r) = 750%nat /\
  head (acc_data_sync r) = Some 200.
Proof. vm_compute. repeat split. Qed.

(** C1, at the input where it fails: a signal of 3 samples with label and
    severity streams of 5 samples, both anchors at 0 s, rate 100 Hz.  The
    signal comes back with 3 samples, the labels, the severities and the
    time axis with 5: the end trim only ever shortens the signal. *)
Theorem sync_data_short_signal_lengths :
  let r := sync_data [(0, 0, 1); (0, 0, 1); (0, 0, 1)]
                     [0; 0; 1; 1; 0] [-1; -1; 2; 2; 2] (0%Q, 0%Q) 100%Q in
  length (acc_data_sync r) = 3%nat /\
  length (label_data_sync r) = 5%nat /\
  length (chorea_labels_sync r) = 5%nat /\
  length (time_data_sync r) = 5%nat.
Proof. vm_compute. repeat split. Qed.


(** C9: on streams that are already aligned (signal and labels of equal
    length, both anchors at zero), the signal, the category labels and the
    severity labels come back unchanged. *)
Theorem sync_data_aligned_unchanged {A} (acc : list A) (label chorea : list Z)
    (sync_sec : Q * Q) (rate : Q) :
  length acc = length label ->
  (fst sync_sec == 0)%Q -> (snd sync_sec == 0)%Q ->
  let r := sync_data acc label chorea sync_sec rate in
  acc_data_sync r = acc /\
  label_data_sync r = label /\
  chorea_labels_sync r = chorea.
Proof.
  intros Hlen H0 H1 r.
  destruct (sync_data_unfold acc label chorea sync_sec rate)
    as (Hl & Hc & Ha & _).
  fold r in Hl, Hc, Ha.
  assert (anchor_diff sync_sec rate = 0) as Hd.
  { unfold anchor_diff, signal_anchor_samples, label_anchor_samples.
    rewrite !py_int_mult_zero by done. done. }
  rewrite Hd in Hl, Hc, Ha.
  change (Z.to_nat (- 0)) with 0%nat in Hl, Hc, Ha.
  change (Z.to_nat 0) with 0%nat in Ha.
  rewrite !drop_0 in Hl, Hc, Ha.
  rewrite Hl, Hc, Ha. split; [| done].
  apply take_ge. lia.
Qed.


Lemma sync_data_aligned_unchanged_witness :
  let acc := [(0, 0, 1); (0, 1, 0); (1, 0, 0)] in
  let label := [0; 1; 1] in
  let chorea := [-1; 2; 2] in
  length acc = length label /\ (0 == 0)%Q /\
  acc_data_sync (sync_data acc label chorea (0%Q, 0%Q) 100) = acc /\
  label_data_sync (sync_data acc label chorea (0%Q, 0%Q) 100) = label /\
  chorea_labels_sync (sync_data acc label chorea (0%Q, 0%Q) 100) = chorea.
Proof.
  intros acc label chorea.
  assert (length acc = length label) as Hlen by reflexivity.
  assert (0 == 0)%Q as Hz by reflexivity.
  split; [exact Hlen |]. split; [exact Hz |].
  exact (sync_data_aligned_unchanged acc label chorea (0%Q, 0%Q) 100
           Hlen Hz Hz).
Defined.

End ReadDataSpec.

(** ** Properties of [movingstd] and [resample] *)

Module SignalSpec.
Import Preprocessing.

Section MovingStd.
Context {F : Type} `{Float64 F}.

(** The mode test is an exact match against the three words. *)
Lemma movingstd_unknown_mode (data : list (F * F * F)) (window_size : Z)
    (windowmode : string) :
  lower windowmode ∉ valid ->
  movingstd data window_size windowmode = Raise ValueError.
Proof.
  intros Hnot. unfold movingstd.
  by rewrite bool_decide_eq_false_2.
Qed.

Lemma contraction_c : is_contraction "c".
Proof.
  split; [done |].
  exists "central"%string. split; [| reflexivity].
  unfold valid. apply list_elem_of_here.
Qed.

(** C5, at the input where it fails: the one-letter contraction "c" of
    "central" is a non-empty prefix of a mode word, and [movingstd]
    raises [ValueError] on it whatever the data and the window size. *)
Theorem movingstd_rejects_contraction (data : list (F * F * F)) (window_size : Z) :
  is_contraction "c" /\
  movingstd data window_size "c" = Raise ValueError.
Proof.
  split; [apply contraction_c |].
  apply movingstd_unknown_mode.
  apply (bool_decide_eq_false_1 (lower "c" ∈ valid)).
  vm_compute. reflexivity.
Qed.

(** The two directional branches are one computation. *)
Lemma movingstd_forward_eq_backward (data : list (F * F * F)) (window_size : Z) :
  movingstd data window_size "forward" = movingstd data window_size "backward".
Proof.
  unfold movingstd.
  change (lower "forward") with "forward"%string.
  change (lower "backward") with "backward"%string.
  replace (bool_decide ("forward"%string ∈ valid)) with true
    by (symmetry; apply bool_decide_eq_true_2; unfold valid; set_solver).
  replace (bool_decide ("backward"%string ∈ valid)) with true
    by (symmetry; apply bool_decide_eq_true_2; unfold valid; set_solver).
  change (String.eqb "forward" "central") with false.
  change (String.eqb "backward" "central") with false.
  change (String.eqb "forward" "forward") with true.
  change (String.eqb "backward" "forward") with false.
  change (String.eqb "backward" "backward") with true.
  cbv iota. reflexivity.
Qed.

Lemma movingstd_forward_returns (data : list (F * F * F)) (window_size : Z) :
  2 <= window_size -> window_size <= Z.of_nat (length data) ->
  exists s, movingstd data window_size "forward" = Ok s.
Proof.
  intros Hlo Hhi. unfold movingstd.
  change (lower "forward") with "forward"%string.
  replace (bool_decide ("forward"%string ∈ valid)) with true
    by (symmetry; apply bool_decide_eq_true_2; unfold valid; set_solver).
  change (String.eqb "forward" "central") with false.
  change (String.eqb "forward" "forward") with true.
  cbv iota. cbn [negb andb orb].
  destruct (Z.ltb_spec window_size 1); [lia |].
  destruct (Z.ltb_spec window_size 2); [lia |].
  destruct (Z.ltb_spec (Z.of_nat (length data)) window_size); [lia |].
  cbn [orb]. eexists. reflexivity.
Qed.

(** C10: for a data array and a window size that pass the argument
    checks of a directional mode (2 <= window_size <= len(data)),
    [movingstd] returns with windowmode 'forward' and with windowmode
    'backward', and returns the same array. *)
Theorem movingstd_directional_modes_agree (data : list (F * F * F)) (window_size : Z) :
  2 <= window_size -> window_size <= Z.of_nat (length data) ->
  exists s,
    movingstd data window_size "forward" = Ok s /\
    movingstd data window_size "backward" = Ok s.
Proof.
  intros Hlo Hhi.
  destruct (movingstd_forward_returns data window_size Hlo Hhi) as [s Hs].
  exists s. split; [done |].
  by rewrite <- movingstd_forward_eq_backward.
Qed.

End MovingStd.

Lemma movingstd_directional_modes_agree_witness :
  let data : list (Q * Q * Q) :=
    [(1, 0, 0); (0, 2, 0); (0, 0, 3); (1, 1, 1); (2, 0, 0)]%Q in
  2 <= 2 /\ 2 <= Z.of_nat (length data) /\
  exists s,
    @movingstd Q Q_float64 data 2 "forward" = Ok s /\
    @movingstd Q Q_float64 data 2 "backward" = Ok s.
Proof.
  intros data.
  split; [lia |]. split; [simpl; lia |].
  apply (@movingstd_directional_modes_agree Q Q_float64 data 2); simpl; lia.
Defined.

Lemma py_int_floor (q : Q) : (0 <= q)%Q -> py_int q = Qfloor q.
Proof.
  destruct q as [n d]. unfold Qle, py_int, Qfloor. simpl. intros Hq.
  apply Z.quot_div_nonneg; lia.
Qed.

Lemma Qeq_bool_pos (q : Q) : (0 < q)%Q -> Qeq_bool q 0 = false.
Proof.
  intros Hq. destruct (Qeq_bool q 0) eqn:E; [| done].
  apply Qeq_bool_eq in E. rewrite E in Hq.
  by apply Qlt_irrefl in Hq.
Qed.

Lemma resampling_factor_pos (original_fs target_fs : Q) :
  (0 < original_fs)%Q -> (0 < target_fs)%Q -> (0 < original_fs / target_fs)%Q.
Proof.
  intros Ho Ht. apply Qlt_shift_div_l; [done |].
  by rewrite Qmult_0_l.
Qed.

Lemma target_count_nonneg (n : nat) (factor : Q) :
  (0 < factor)%Q -> (0 <= inject_Z (Z.of_nat n) / factor)%Q.
Proof.
  intros Hf. apply Qle_shift_div_l; [done |].
  rewrite Qmult_0_l. unfold Qle. simpl. lia.
Qed.

Section Resample.
Context {F : Type} `{Float64 F} `{SciPySignal}.
Hypothesis contract : resample_contract.


End Resample.

Lemma length_omap_total {A B} (f : A -> option B) (l : list A) :
  (forall x, x ∈ l -> is_Some (f x)) -> length (omap f l) = length l.
Proof.
  induction l as [| a l IH]; intros Hf; [done |].
  destruct (Hf a) as [b Hb]; [apply list_elem_of_here |].
  cbn. rewrite Hb. cbn. f_equal. apply IH.
  intros x Hx. apply Hf. by apply list_elem_of_further.
Qed.

Lemma nearest_resample_contract : @resample_contract nearest_signal.
Proof.
  split.
  - intros X x num y. simpl. unfold nearest_resample.
    destruct (Z.leb_spec num 0) as [| Hnum]; [done |].
    destruct (Z.eqb_spec (Z.of_nat (length x)) 0) as [| Hx]; [done |].
    simpl. intros [= <-].
    rewrite length_omap_total; [by rewrite length_seq |].
    intros i Hi. apply elem_of_seq in Hi. apply lookup_lt_is_Some.
    apply Nat.Div0.div_lt_upper_bound. nia.
  - intros X x num Hx Hnum. simpl. unfold nearest_resample.
    destruct (Z.leb_spec num 0); [lia |].
    destruct (Z.eqb_spec (Z.of_nat (length x)) 0) as [E |].
    + destruct x; [done | simpl in E; lia].
    + simpl. eauto.
Qed.


End SignalSpec.

(** ** Properties of [data_windowing] *)

Module WindowingSpec.
Import Preprocessing.

(** Unfolds the sequencing of the store computations of [data_windowing]
    down to pairs of a result and a store. *)
Ltac run_store :=
  cbv [mbind mret M_bind M_ret raise lift mask_eq_select
       slice_from_assign read alloc write].

(** *** The windows *)

Lemma omap_total {A B} (f : A -> option B) (g : A -> B) (l : list A) :
  (forall x, x ∈ l -> f x = Some (g x)) -> omap f l = map g l.
Proof.
  induction l as [| a l IH]; intros Hf; [done |].
  cbn. rewrite (Hf a) by apply list_elem_of_here.
  cbn. f_equal. apply IH.
  intros x Hx. apply Hf. by apply list_elem_of_further.
Qed.

Lemma every_nth_map_seq {A} (f : nat -> A) (step m : nat) :
  (1 <= step)%nat ->
  every_nth step (map f (seq 0 m)) =
  map (fun i => f (i * step)%nat) (seq 0 ((m + step - 1) / step)).
Proof.
  intros Hs. unfold every_nth. rewrite length_map, length_seq.
  apply omap_total. intros i Hi. apply elem_of_seq in Hi.
  assert (i * step < m)%nat as Hlt.
  { pose proof (Nat.Div0.mul_div_le (m + step - 1) step). nia. }
  rewrite list_lookup_fmap, lookup_seq_lt by done. done.
Qed.

Lemma sliding_window_view_ok {A} (x : list A) (W : Z) :
  0 <= W -> W <= Z.of_nat (length x) ->
  sliding_window_view x W =
  Ok (map (fun i => take (Z.to_nat W) (drop i x))
          (seq 0 (length x - Z.to_nat W + 1))).
Proof.
  intros H0 H1. unfold sliding_window_view.
  destruct (Z.ltb_spec W 0); [lia |].
  destruct (Z.ltb_spec (Z.of_nat (length x)) W); [lia |]. done.
Qed.

Lemma window_count_nat (N : nat) (W O : Z) :
  0 <= O < W -> W <= Z.of_nat N ->
  ((N - Z.to_nat W + 1 + Z.to_nat (W - O) - 1) / Z.to_nat (W - O))%nat
  = window_count N W O.
Proof.
  intros HO HW. unfold window_count.
  replace (N - Z.to_nat W + 1 + Z.to_nat (W - O) - 1)%nat
    with (Z.to_nat (Z.of_nat N - O)) by lia.
  rewrite Z2Nat.inj_div by lia. done.
Qed.

Lemma windows_ok {A} (x : list A) (W O : Z) :
  0 <= O < W -> W <= Z.of_nat (length x) ->
  (v ← sliding_window_view x W; strided (W - O) v) =
  Ok (map (fun i => window_at W (W - O) i x)
          (seq 0 (window_count (length x) W O))).
Proof.
  intros HO HW. rewrite sliding_window_view_ok by lia.
  cbn. unfold strided.
  destruct (Z.eqb_spec (W - O) 0); [lia |].
  destruct (Z.ltb_spec 0 (W - O)); [| lia].
  rewrite every_nth_map_seq by lia.
  rewrite window_count_nat by lia. done.
Qed.

Lemma windows_then {A B} (x : list A) (W O : Z) (f : list (list A) -> result B) :
  0 <= O < W -> W <= Z.of_nat (length x) ->
  (v ← sliding_window_view x W; w ← strided (W - O) v; f w) =
  f (map (fun i => window_at W (W - O) i x)
         (seq 0 (window_count (length x) W O))).
Proof.
  intros HO HW. rewrite sliding_window_view_ok by lia.
  cbn. unfold strided.
  destruct (Z.eqb_spec (W - O) 0); [lia |].
  destruct (Z.ltb_spec 0 (W - O)); [| lia].
  rewrite every_nth_map_seq by lia.
  rewrite window_count_nat by lia. done.
Qed.

Lemma squeeze_2d (rows : list (list Z)) (W : Z) :
  (2 <= length rows)%nat -> W <> 1 -> squeeze rows W = Sq2 rows.
Proof.
  intros Hk HW. unfold squeeze.
  destruct rows as [| r [| r' rows]]; simpl in Hk; try lia.
  by destruct (Z.eqb_spec W 1).
Qed.

Lemma data_windowing_returns {A} (data : list A) (labels chorea : list Z)
    (W O : Z) (std_idx : loc) (σ : gmap nat (list Z)) (mask : list Z) :
  σ !! std_idx = Some mask ->
  2 <= W -> 0 <= O < W ->
  length labels = length data -> length chorea = length data ->
  W <= Z.of_nat (length data) ->
  (2 <= window_count (length data) W O)%nat ->
  let k := window_count (length data) W O in
  data_windowing data labels chorea W O std_idx σ =
  (Ok (mk_windowed
         (map (fun i => window_at W (W - O) i data) (seq 0 k))
         (mode (map (fun i => window_at W (W - O) i labels) (seq 0 k)))
         (map (row_severity W)
              (map (fun i => window_at W (W - O) i chorea) (seq 0 k)))
         (fresh (dom σ)) (Z.of_nat k)),
   <[fresh (dom σ) := excluded_tail mask (length data) W O]> σ).
Proof.
  intros Hσ HW HO Hl Hc HN Hk k.
  unfold data_windowing.
  destruct (Z.ltb_spec W 0); [lia |].
  destruct (Z.eqb_spec (W - O) 0); [lia |].
  destruct (Z.eqb_spec W 0); [lia |].
  rewrite windows_ok, !windows_then by lia. rewrite Hl, Hc. fold k.
  rewrite !squeeze_2d by (rewrite ?length_map, ?length_seq; lia).
  run_store. cbv [result_ret shape0 axis1].
  rewrite Hσ. rewrite lookup_insert_eq. rewrite insert_insert_eq.
  rewrite zip_with_fmap_l, zip_with_fmap_r, zip_with_diag.
  rewrite length_map, length_seq.
  reflexivity.
Qed.

(** *** The majority vote *)

Lemma count_occurrences (x : Z) (row : list Z) :
  count x row = Z.of_nat (occurrences x row).
Proof.
  unfold count, occurrences. induction row as [| y row IH]; [done |].
  cbn [map sumZ foldr]. fold (sumZ (map (fun y => Z.b2z (y =? x)) row)).
  rewrite IH. rewrite filter_cons.
  destruct (decide (y = x)) as [-> | Hne].
  - rewrite Z.eqb_refl. cbn [length Z.b2z]. lia.
  - destruct (Z.eqb_spec y x); [done |]. cbn [Z.b2z]. lia.
Qed.

Lemma occurrences_pos (x : Z) (row : list Z) :
  (0 < occurrences x row)%nat <-> x ∈ row.
Proof.
  unfold occurrences. split.
  - intros Hpos. destruct (filter (fun y => y = x) row) as [| y l] eqn:E;
      [simpl in Hpos; lia |].
    assert (y ∈ filter (fun y => y = x) row) as Hy by (rewrite E; left).
    apply list_elem_of_filter in Hy as [-> Hy]. done.
  - intros Hx.
    assert (x ∈ filter (fun y => y = x) row) as Hf
      by (by apply list_elem_of_filter).
    destruct (filter (fun y => y = x) row); [by apply not_elem_of_nil in Hf |].
    simpl. lia.
Qed.

Lemma StronglySorted_lt_unique (l : list Z) :
  NoDup l -> StronglySorted Z.le l -> StronglySorted Z.lt l.
Proof.
  induction l as [| x l IH]; intros Hnd Hs; [constructor |].
  apply NoDup_cons in Hnd as [Hx Hnd].
  apply StronglySorted_cons in Hs as [Hall Hs].
  apply StronglySorted_cons. split; [| by apply IH].
  apply Forall_forall. intros y Hy.
  rewrite Forall_forall in Hall. specialize (Hall y Hy).
  assert (x <> y) by (intros ->; done). lia.
Qed.

Lemma np_unique_sorted (xs : list Z) : StronglySorted Z.lt (np_unique xs).
Proof.
  unfold np_unique. apply StronglySorted_lt_unique.
  - rewrite merge_sort_Permutation. apply NoDup_remove_dups.
  - apply StronglySorted_merge_sort; apply _.
Qed.

Lemma elem_of_np_unique (x : Z) (xs : list Z) : x ∈ np_unique xs <-> x ∈ xs.
Proof.
  unfold np_unique. rewrite merge_sort_Permutation. apply elem_of_remove_dups.
Qed.

Lemma elem_of_concat_row (x : Z) (row : list Z) (a : list (list Z)) :
  row ∈ a -> x ∈ row -> x ∈ concat a.
Proof.
  intros Hrow Hx. apply list_elem_of_In, in_concat.
  exists row. by rewrite <- !list_elem_of_In.
Qed.

(** What the scan over the ascending scores has found after a prefix. *)
Lemma mode_scan (row scores : list Z) :
  StronglySorted Z.lt scores ->
  let '(m, c) := foldl (mode_step row) (0, 0) scores in
  0 <= c /\
  (forall s, s ∈ scores -> count s row <= c) /\
  (0 < c ->
   m ∈ scores /\ count m row = c /\
   forall s, s ∈ scores -> count s row = c -> m <= s).
Proof.
  induction scores as [| x scores IH] using rev_ind; intros Hs.
  - simpl. split; [lia |]. split; [| lia].
    intros s Hs'. by apply not_elem_of_nil in Hs'.
  - apply StronglySorted_app in Hs as (Hlt & Hs & _).
    specialize (IH Hs). rewrite foldl_snoc.
    destruct (foldl (mode_step row) (0, 0) scores) as [m c].
    destruct IH as (Hc & Hmax & Hbest). unfold mode_step.
    assert (0 <= count x row) as Hx by (rewrite count_occurrences; lia).
    destruct (Z.ltb_spec c (count x row)) as [Hlt' | Hge].
    + rewrite Z.max_l by lia. split; [lia |]. split.
      * intros s [Hin | ->%list_elem_of_singleton]%elem_of_app; [| lia].
        specialize (Hmax s Hin). lia.
      * intros _. split; [apply elem_of_app; right; left |].
        split; [done |].
        intros s [Hin | ->%list_elem_of_singleton]%elem_of_app Heq; [| lia].
        specialize (Hmax s Hin). lia.
    + rewrite Z.max_r by lia. split; [done |]. split.
      * intros s [Hin | ->%list_elem_of_singleton]%elem_of_app; [| lia].
        by apply Hmax.
      * intros Hpos. destruct (Hbest Hpos) as (Hm & Hcm & Hlow).
        split; [apply elem_of_app; by left |]. split; [done |].
        intros s [Hin | ->%list_elem_of_singleton]%elem_of_app Heq.
        -- by apply Hlow.
        -- assert (m < x); [| lia]. apply Hlt; [done | left].
Qed.

Lemma mode_row_spec (a : list (list Z)) (row : list Z) :
  row ∈ a -> row <> [] ->
  lowest_mode row (fst (foldl (mode_step row) (0, 0) (np_unique (concat a)))).
Proof.
  intros Hrow Hne.
  pose proof (mode_scan row (np_unique (concat a)) (np_unique_sorted _)) as Hscan.
  destruct (foldl (mode_step row) (0, 0) (np_unique (concat a))) as [m c].
  destruct Hscan as (Hc & Hmax & Hbest). simpl.
  assert (forall x, x ∈ row -> x ∈ np_unique (concat a)) as Hscores.
  { intros x Hx. apply elem_of_np_unique. by eapply elem_of_concat_row. }
  assert (0 < c) as Hpos.
  { destruct row as [| x row]; [done |].
    assert (x ∈ x :: row) as Hx by left.
    pose proof (Hmax x (Hscores x Hx)) as Hle.
    rewrite count_occurrences in Hle.
    apply occurrences_pos in Hx. lia. }
  destruct (Hbest Hpos) as (Hm & Hcm & Hlow).
  split.
  - apply occurrences_pos. rewrite count_occurrences in Hcm. lia.
  - intros x Hx. specialize (Hmax x (Hscores x Hx)).
    specialize (Hlow x (Hscores x Hx)).
    rewrite !count_occurrences in *. split; [lia |].
    intros Heq. apply Hlow. lia.
Qed.

(** *** The severity of a window *)





Lemma window_at_length {A} (x : list A) (W O : Z) (i : nat) :
  0 <= O < W -> W <= Z.of_nat (length x) ->
  (i < window_count (length x) W O)%nat ->
  length (window_at W (W - O) i x) = Z.to_nat W.
Proof.
  intros HO HW Hi. unfold window_at, window_count in *.
  rewrite length_take, length_drop.
  pose proof (Z.mul_div_le (Z.of_nat (length x) - O) (W - O) ltac:(lia)) as Hq.
  assert (0 <= (Z.of_nat (length x) - O) / (W - O)) as Hq0
    by (apply Z.div_pos; lia).
  nia.
Qed.

(** *** The store *)

(** Whatever the arguments, the store after the call is the store before
    it with at most one array added, at a reference that was free. *)
Lemma data_windowing_store {A} (data : list A) (labels chorea : list Z)
    (W O : Z) (std_idx : loc) (σ : gmap nat (list Z)) (mask : list Z) :
  σ !! std_idx = Some mask ->
  let σ' := snd (data_windowing data labels chorea W O std_idx σ) in
  σ' = σ \/ exists a, σ' = <[fresh (dom σ) := a]> σ.
Proof.
  intros Hσ. unfold data_windowing.
  run_store.
  destruct (W <? 0); [by left |].
  rewrite Hσ.
  destruct (W - O =? 0); [right; eauto |].
  rewrite lookup_insert_eq, insert_insert_eq.
  repeat case_match; simplify_eq; right; simpl; eauto.
Qed.

Lemma data_windowing_frame {A} (data : list A) (labels chorea : list Z)
    (W O : Z) (std_idx : loc) (σ : gmap nat (list Z)) (mask : list Z) :
  σ !! std_idx = Some mask ->
  snd (data_windowing data labels chorea W O std_idx σ) !! std_idx = Some mask.
Proof.
  intros Hσ.
  destruct (data_windowing_store data labels chorea W O std_idx σ mask Hσ)
    as [-> | [a ->]]; [done |].
  rewrite lookup_insert_ne; [done |].
  intros E. pose proof (is_fresh (dom σ)) as Hfresh.
  rewrite E in Hfresh. apply Hfresh, elem_of_dom. eauto.
Qed.

(** The worked example of the specification: six valid codes 1, 1, 2, 2,
    3, 0 in a window of ten have the mean 1.5. *)
Example mean_example : Qeq (mean [1; 1; 2; 2; 3; 0]) (3 # 2).
Proof. reflexivity. Qed.

(** *** When the call returns *)

Lemma squeeze_not_2d (rows : list (list Z)) (W : Z) :
  length rows = 1%nat \/ W = 1 -> axis1 (squeeze rows W) = Raise AxisError.
Proof.
  intros Hcase. unfold squeeze.
  destruct rows as [| r [| r' rows]].
  - destruct Hcase as [Hlen | ->]; [done |]. done.
  - by destruct r as [| x [| y r]].
  - destruct Hcase as [Hlen | ->]; [done |]. done.
Qed.

Lemma window_count_pos (N : nat) (W O : Z) :
  0 <= O < W -> W <= Z.of_nat N -> (1 <= window_count N W O)%nat.
Proof.
  intros HO HW. unfold window_count.
  assert (1 <= (Z.of_nat N - O) / (W - O)); [| lia].
  apply Z.div_le_lower_bound; lia.
Qed.

(** With an overlap [0 <= O < W] and streams of one length, the call
    returns only from at least two windows of at least two samples. *)
Lemma data_windowing_returns_only_if {A} (data : list A) (labels chorea : list Z)
    (W O : Z) (std_idx : loc) (σ σ' : gmap nat (list Z)) (mask : list Z)
    (out : windowed A) :
  σ !! std_idx = Some mask ->
  0 <= O < W ->
  length labels = length data -> length chorea = length data ->
  data_windowing data labels chorea W O std_idx σ = (Ok out, σ') ->
  2 <= W /\ W <= Z.of_nat (length data) /\
  2 <= (Z.of_nat (length data) - O) / (W - O).
Proof.
  intros Hσ HO Hl Hc Hret.
  destruct (Z.le_gt_cases W (Z.of_nat (length data))) as [HN | HN].
  - pose proof (window_count_pos (length data) W O HO HN) as Hpos.
    destruct (decide (W = 1 \/ window_count (length data) W O = 1%nat))
      as [Hcase | Hcase]; [| unfold window_count in *; lia].
    exfalso. revert Hret. unfold data_windowing.
    rewrite windows_ok, !windows_then by lia. rewrite Hl, Hc.
    run_store. cbv [result_ret].
    destruct (Z.ltb_spec W 0); [lia |].
    destruct (Z.eqb_spec (W - O) 0); [lia |].
    rewrite Hσ, lookup_insert_eq, insert_insert_eq.
    rewrite (squeeze_not_2d
               (map (fun i => window_at W (W - O) i chorea)
                    (seq 0 (window_count (length data) W O)))).
    + by destruct (shape0 _).
    + rewrite length_map, length_seq. tauto.
  - exfalso. revert Hret. unfold data_windowing.
    assert (sliding_window_view data W = Raise ValueError) as ->.
    { unfold sliding_window_view.
      destruct (Z.ltb_spec W 0); [done |].
      by destruct (Z.ltb_spec (Z.of_nat (length data)) W); [| lia]. }
    run_store. cbv [result_bind].
    destruct (Z.ltb_spec W 0); [lia |].
    destruct (Z.eqb_spec (W - O) 0); [lia |].
    by rewrite Hσ, lookup_insert_eq.
Qed.

(** *** Window count, labels, severities and the mask *)

(** C2, as the code has it: for streams of [N] samples each, a window
    length [2 <= W <= N] and an overlap [0 <= O < W], with stride
    [W - O], when at least two windows fit ([floor((N - O) / stride) >=
    2]) the call returns; the number of windows, [NumWin], is
    [floor((N - O) / stride)], the three windowed outputs have that many
    entries, and window [i] is the [W] consecutive samples that start at
    index [i * stride]. *)
Theorem data_windowing_window_count {A} (data : list A) (labels chorea : list Z)
    (W O : Z) (std_idx : loc) (σ : gmap nat (list Z)) (mask : list Z) :
  σ !! std_idx = Some mask ->
  2 <= W -> 0 <= O < W ->
  length labels = length data -> length chorea = length data ->
  W <= Z.of_nat (length data) ->
  2 <= (Z.of_nat (length data) - O) / (W - O) ->
  exists out σ',
    data_windowing data labels chorea W O std_idx σ = (Ok out, σ') /\
    NumWin out = (Z.of_nat (length data) - O) / (W - O) /\
    Z.of_nat (length (windowed_data_all out)) = NumWin out /\
    Z.of_nat (length (windowed_labels_all out)) = NumWin out /\
    Z.of_nat (length (windowed_chorea_all out)) = NumWin out /\
    forall i, Z.of_nat i < NumWin out ->
      windowed_data_all out !! i =
        Some (take (Z.to_nat W) (drop (i * Z.to_nat (W - O)) data)) /\
      length (take (Z.to_nat W) (drop (i * Z.to_nat (W - O)) data)) = Z.to_nat W.
Proof.
  intros Hσ HW HO Hl Hc HN Hk.
  assert (2 <= window_count (length data) W O)%nat as Hk'
    by (unfold window_count; lia).
  eexists _, _. split.
  { by apply (data_windowing_returns data labels chorea W O std_idx σ mask). }
  cbn [NumWin windowed_data_all windowed_labels_all windowed_chorea_all].
  unfold mode. rewrite !length_map, length_seq.
  assert (Z.of_nat (window_count (length data) W O) =
          (Z.of_nat (length data) - O) / (W - O)) as Hcount
    by (unfold window_count; lia).
  rewrite Hcount. repeat (split; [done |]).
  intros i Hi. split.
  - rewrite list_lookup_fmap, lookup_seq_lt by lia. done.
  - apply (window_at_length data W O i); lia.
Qed.

(** C3, as the code has it: under the same conditions the call returns,
    and the category label of every window is the statistical mode of
    all the per-sample codes of the window, the lowest code winning a
    tie; the reserved code -9 is counted like every other code. *)
Theorem data_windowing_label_is_lowest_mode {A} (data : list A)
    (labels chorea : list Z) (W O : Z) (std_idx : loc)
    (σ : gmap nat (list Z)) (mask : list Z) :
  σ !! std_idx = Some mask ->
  2 <= W -> 0 <= O < W ->
  length labels = length data -> length chorea = length data ->
  W <= Z.of_nat (length data) ->
  2 <= (Z.of_nat (length data) - O) / (W - O) ->
  exists out σ',
    data_windowing data labels chorea W O std_idx σ = (Ok out, σ') /\
    forall i, Z.of_nat i < NumWin out ->
      exists m,
        windowed_labels_all out !! i = Some m /\
        lowest_mode (window_at W (W - O) i labels) m.
Proof.
  intros Hσ HW HO Hl Hc HN Hk.
  assert (2 <= window_count (length data) W O)%nat as Hk'
    by (unfold window_count; lia).
  eexists _, _. split.
  { by apply (data_windowing_returns data labels chorea W O std_idx σ mask). }
  cbn [NumWin windowed_labels_all]. intros i Hi.
  set (rows := map (fun i => window_at W (W - O) i labels)
                   (seq 0 (window_count (length data) W O))).
  assert (rows !! i = Some (window_at W (W - O) i labels)) as Hrow.
  { subst rows. rewrite list_lookup_fmap, lookup_seq_lt by lia. done. }
  eexists. split.
  - unfold mode. rewrite list_lookup_fmap, Hrow. reflexivity.
  - apply mode_row_spec.
    + apply list_elem_of_lookup. eauto.
    + intros E. apply (f_equal length) in E.
      rewrite <- Hl in Hi.
      rewrite (window_at_length labels W O i) in E by lia.
      simpl in E. lia.
Qed.


(** C8, as the code has it: the call never changes the array that the
    caller passed as [std_idx], whether it returns or raises.  When it
    returns, [inclusion_idx] refers to an array that did not exist
    before the call and that holds the entries of the mask equal to 1
    with the positions from [upper_limit - overlap] on set to 0. *)
Theorem data_windowing_leaves_caller_mask {A} (data : list A)
    (labels chorea : list Z) (W O : Z) (std_idx : loc)
    (σ : gmap nat (list Z)) (mask : list Z) :
  σ !! std_idx = Some mask ->
  snd (data_windowing data labels chorea W O std_idx σ) !! std_idx = Some mask /\
  (2 <= W -> 0 <= O < W ->
   length labels = length data -> length chorea = length data ->
   W <= Z.of_nat (length data) ->
   2 <= (Z.of_nat (length data) - O) / (W - O) ->
   exists out σ',
     data_windowing data labels chorea W O std_idx σ = (Ok out, σ') /\
     inclusion_idx out <> std_idx /\
     σ !! inclusion_idx out = None /\
     σ' !! inclusion_idx out =
       Some (excluded_tail mask (length data) W O) /\
     σ' !! std_idx = Some mask).
Proof.
  intros Hσ. split; [by apply data_windowing_frame |].
  intros HW HO Hl Hc HN Hk.
  assert (2 <= window_count (length data) W O)%nat as Hk'
    by (unfold window_count; lia).
  pose proof (data_windowing_frame data labels chorea W O std_idx σ mask Hσ)
    as Hframe.
  rewrite (data_windowing_returns data labels chorea W O std_idx σ mask) in *
    by done.
  eexists _, _. split; [reflexivity |].
  cbn [inclusion_idx]. cbn [snd] in Hframe.
  match goal with |- ?l <> _ /\ _ => set (new := l) in * end.
  assert (σ !! new = None) as Hnone.
  { subst new. apply not_elem_of_dom, is_fresh. }
  split; [intros E; rewrite E, Hσ in Hnone; discriminate |].
  split; [done |].
  split; [apply lookup_insert_eq | done].
Qed.

(** C2 fails as stated: 10 samples, [W = 4], [O = 2] (stride 2) give 4
    windows, not [floor(10 / 2) = 5]. *)
Lemma data_windowing_count_below_floor :
  let data := seqZ 0 10 in
  let zeros := replicate 10 0 in
  let σ : gmap nat (list Z) := {[ 0%nat := replicate 10 1 ]} in
  exists out σ',
    data_windowing data zeros zeros 4 2 0%nat σ = (Ok out, σ') /\
    NumWin out = 4 /\
    Z.of_nat (length data) / (4 - 2) = 5 /\
    NumWin out <> Z.of_nat (length data) / (4 - 2).
Proof.
  intros data zeros σ. eexists _, _.
  split; [vm_compute; reflexivity |].
  split; [reflexivity |]. split; [reflexivity |].
  vm_compute. discriminate.
Qed.

(** C3 fails as stated: the third window of these labels holds the codes
    -9, -9, 1, 0 and is labelled -9, which is not even a candidate once
    the samples carrying -9 are left out of the vote. *)
Lemma data_windowing_counts_ambiguous_code :
  let data := seqZ 0 10 in
  let labels := [1; 1; 0; 0; -9; -9; 1; 0; 0; 0] in
  let σ : gmap nat (list Z) := {[ 0%nat := replicate 10 1 ]} in
  exists out σ',
    data_windowing data labels (replicate 10 0) 4 2 0%nat σ = (Ok out, σ') /\
    window_at 4 (4 - 2) 2 labels = [-9; -9; 1; 0] /\
    windowed_labels_all out !! 2%nat = Some (-9) /\
    ~ lowest_mode (without_ambiguous (window_at 4 (4 - 2) 2 labels)) (-9).
Proof.
  intros data labels σ. eexists _, _.
  split; [vm_compute; reflexivity |].
  split; [reflexivity |]. split; [reflexivity |].
  intros [Hin _]. vm_compute in Hin.
  apply list_elem_of_In in Hin. simpl in Hin. intuition discriminate.
Qed.

(** C8 fails as stated: after a call with 10 samples, [W = 4], [O = 2]
    ([upper_limit - overlap = 8]) the caller's array still holds 1 at
    positions 8 and 9. *)
Lemma data_windowing_tail_of_caller_mask_not_zeroed :
  let data := seqZ 0 10 in
  let zeros := replicate 10 0 in
  let σ : gmap nat (list Z) := {[ 0%nat := replicate 10 1 ]} in
  exists out σ' mask,
    data_windowing data zeros zeros 4 2 0%nat σ = (Ok out, σ') /\
    Z.of_nat (length data) / (4 - 2) * (4 - 2) - 2 = 8 /\
    σ' !! 0%nat = Some mask /\
    mask !! 8%nat = Some 1 /\ mask !! 9%nat = Some 1 /\
    mask !! 8%nat <> Some 0.
Proof.
  intros data zeros σ. eexists _, _, _.
  split; [vm_compute; reflexivity |].
  split; [reflexivity |].
  split; [vm_compute; reflexivity |].
  split; [reflexivity |]. split; [reflexivity |]. discriminate.
Qed.

Lemma data_windowing_window_count_witness :
  let data := seqZ 0 700 in
  let zeros := replicate 700 0 in
  let mask := replicate 700 1 in
  let σ : gmap nat (list Z) := {[ 0%nat := mask ]} in
  σ !! 0%nat = Some mask /\ 2 <= 200 /\ 0 <= 50 < 200 /\
  length zeros = length data /\ 200 <= Z.of_nat (length data) /\
  2 <= (Z.of_nat (length data) - 50) / (200 - 50) /\
  exists out σ',
    data_windowing data zeros zeros 200 50 0%nat σ = (Ok out, σ') /\
    NumWin out = 4 /\
    windowed_data_all out !! 3%nat = Some (seqZ 450 200).
Proof.
  intros data zeros mask σ.
  assert (σ !! 0%nat = Some mask) as Hσ by apply lookup_singleton_eq.
  assert (length zeros = length data) as Hl by reflexivity.
  assert (200 <= Z.of_nat (length data)) as HN by (vm_compute; discriminate).
  assert (2 <= (Z.of_nat (length data) - 50) / (200 - 50)) as Hk
    by (vm_compute; discriminate).
  split; [exact Hσ |]. split; [lia |]. split; [lia |].
  split; [exact Hl |]. split; [exact HN |]. split; [exact Hk |].
  destruct (data_windowing_window_count data zeros zeros 200 50 0%nat σ mask
              Hσ ltac:(lia) ltac:(lia) Hl Hl HN Hk)
    as (out & σ' & Hrun & Hnum & _ & _ & _ & Hwin).
  exists out, σ'. split; [exact Hrun |].
  assert (NumWin out = 4) as Hfour by (rewrite Hnum; reflexivity).
  split; [exact Hfour |].
  destruct (Hwin 3%nat) as [Hthird _]; [rewrite Hfour; reflexivity |].
  rewrite Hthird. vm_compute. reflexivity.
Defined.

Lemma data_windowing_label_is_lowest_mode_witness :
  let data := seqZ 0 10 in
  let labels := [1; 1; 0; 0; -9; -9; 1; 0; 0; 0] in
  let zeros := replicate 10 0 in
  let mask := replicate 10 1 in
  let σ : gmap nat (list Z) := {[ 0%nat := mask ]} in
  σ !! 0%nat = Some mask /\ 2 <= 4 /\ 0 <= 2 < 4 /\
  length labels = length data /\ length zeros = length data /\
  4 <= Z.of_nat (length data) /\
  2 <= (Z.of_nat (length data) - 2) / (4 - 2) /\
  exists out σ',
    data_windowing data labels zeros 4 2 0%nat σ = (Ok out, σ') /\
    exists m, windowed_labels_all out !! 0%nat = Some m /\
              lowest_mode [1; 1; 0; 0] m.
Proof.
  intros data labels zeros mask σ.
  assert (σ !! 0%nat = Some mask) as Hσ by apply lookup_singleton_eq.
  assert (length labels = length data) as Hl by reflexivity.
  assert (length zeros = length data) as Hc by reflexivity.
  assert (4 <= Z.of_nat (length data)) as HN by (vm_compute; discriminate).
  assert (2 <= (Z.of_nat (length data) - 2) / (4 - 2)) as Hk
    by (vm_compute; discriminate).
  split; [exact Hσ |]. split; [lia |]. split; [lia |].
  split; [exact Hl |]. split; [exact Hc |]. split; [exact HN |].
  split; [exact Hk |].
  destruct (data_windowing_label_is_lowest_mode data labels zeros 4 2 0%nat
              σ mask Hσ ltac:(lia) ltac:(lia) Hl Hc HN Hk)
    as (out & σ' & Hrun & Hmode).
  exists out, σ'. split; [exact Hrun |].
  apply (Hmode 0%nat).
  vm_compute in Hrun. injection Hrun as <- _. reflexivity.
Defined.


Lemma data_windowing_leaves_caller_mask_witness :
  let data := seqZ 0 10 in
  let zeros := replicate 10 0 in
  let mask := [1; 0; 1; 1; 1; 1; 1; 1; 1; 1] in
  let σ : gmap nat (list Z) := {[ 0%nat := mask ]} in
  σ !! 0%nat = Some mask /\ 2 <= 4 /\ 0 <= 2 < 4 /\
  length zeros = length data /\ 4 <= Z.of_nat (length data) /\
  2 <= (Z.of_nat (length data) - 2) / (4 - 2) /\
  snd (data_windowing data zeros zeros 4 2 0%nat σ) !! 0%nat = Some mask /\
  exists out σ',
    data_windowing data zeros zeros 4 2 0%nat σ = (Ok out, σ') /\
    inclusion_idx out <> 0%nat /\
    σ' !! inclusion_idx out = Some [1; 1; 1; 1; 1; 1; 1; 1; 0] /\
    σ' !! 0%nat = Some mask.
Proof.
  intros data zeros mask σ.
  assert (σ !! 0%nat = Some mask) as Hσ by apply lookup_singleton_eq.
  assert (length zeros = length data) as Hl by reflexivity.
  assert (4 <= Z.of_nat (length data)) as HN by (vm_compute; discriminate).
  assert (2 <= (Z.of_nat (length data) - 2) / (4 - 2)) as Hk
    by (vm_compute; discriminate).
  split; [exact Hσ |]. split; [lia |]. split; [lia |].
  split; [exact Hl |]. split; [exact HN |]. split; [exact Hk |].
  destruct (data_windowing_leaves_caller_mask data zeros zeros 4 2 0%nat
              σ mask Hσ) as [Hframe Hnew].
  split; [exact Hframe |].
  destruct (Hnew ltac:(lia) ltac:(lia) Hl Hl HN Hk)
    as (out & σ' & Hrun & Hne & _ & Htail & Hkeep).
  exists out, σ'. split; [exact Hrun |]. split; [exact Hne |].
  split; [exact Htail | exact Hkeep].
Defined.

End WindowingSpec.

(** ** More about [sync_data] *)

Module SyncExtra.
Import ReadData ReadDataSpec.

(** X1: For every input, sync_data returns a time array as long as the
    returned labels and a signal that is never longer than the returned labels
    nor than either input; the returned severities have the labels' length
    when the two inputs had one length; and the signal has the labels' length
    exactly when, after the trim at the start, at least as many signal samples
    as labels remain. *)
Theorem sync_data_length_profile {A} (acc : list A) (label chorea : list Z)
    (sync_sec : Q * Q) (rate : Q) :
  let d := anchor_diff sync_sec rate in
  let r := sync_data acc label chorea sync_sec rate in
  length (time_data_sync r) = length (label_data_sync r) /\
  (length (acc_data_sync r) <= length (label_data_sync r))%nat /\
  (length (acc_data_sync r) <= Nat.min (length acc) (length label))%nat /\
  (length chorea = length label ->
   length (chorea_labels_sync r) = length (label_data_sync r)) /\
  (length (acc_data_sync r) = length (label_data_sync r) <->
   (length label - Z.to_nat (- d) <= length acc - Z.to_nat d)%nat).
Proof.
  intros d r.
  destruct (sync_data_lengths acc label chorea sync_sec rate)
    as (Hl & Hc & Ht & Ha).
  fold d in Hl, Hc, Ht, Ha. fold r in Hl, Hc, Ht, Ha.
  rewrite Hl, Hc, Ht, Ha. repeat split; try lia.
Qed.

(** X2: Passing the outputs of sync_data to sync_data again with both anchors
    at 0 seconds (at any rate) returns the same signal, labels and severities,
    and a time array of the same length: once synchronised, nothing more is
    trimmed. *)
Theorem sync_data_resync_unchanged {A} (acc : list A) (label chorea : list Z)
    (sync_sec : Q * Q) (rate rate' : Q) :
  let r := sync_data acc label chorea sync_sec rate in
  let r' := sync_data (acc_data_sync r) (label_data_sync r)
                      (chorea_labels_sync r) (0%Q, 0%Q) rate' in
  acc_data_sync r' = acc_data_sync r /\
  label_data_sync r' = label_data_sync r /\
  chorea_labels_sync r' = chorea_labels_sync r /\
  length (time_data_sync r') = length (time_data_sync r).
Proof.
  intros r r'.
  destruct (sync_data_unfold (acc_data_sync r) (label_data_sync r)
              (chorea_labels_sync r) (0%Q, 0%Q) rate') as (Hl & Hc & Ha & Ht).
  fold r' in Hl, Hc, Ha, Ht.
  assert (anchor_diff (0%Q, 0%Q) rate' = 0) as Hd.
  { unfold anchor_diff, signal_anchor_samples, label_anchor_samples.
    rewrite !py_int_mult_zero by reflexivity. done. }
  rewrite Hd in Hl, Hc, Ha, Ht.
  change (Z.to_nat (- 0)) with 0%nat in Hl, Hc, Ha, Ht.
  change (Z.to_nat 0) with 0%nat in Ha.
  rewrite !drop_0 in Hl, Hc, Ha, Ht.
  destruct (sync_data_lengths acc label chorea sync_sec rate)
    as (Hl0 & _ & Ht0 & Ha0).
  fold r in Hl0, Ht0, Ha0.
  rewrite Hl, Hc, Ha, Ht. repeat split; [| lia].
  apply take_ge. lia.
Qed.




End SyncExtra.

(** ** More about [movingstd] and [resample] *)

Module SignalExtra.
Import Preprocessing SignalSpec.

Lemma lower_ascii_idemp (c : ascii) : lower_ascii (lower_ascii c) = lower_ascii c.
Proof. destruct c as [[] [] [] [] [] [] [] []]; reflexivity. Qed.

Lemma lower_idemp (s : string) : lower (lower s) = lower s.
Proof.
  induction s as [| c s IH]; [done |].
  cbn [lower]. by rewrite lower_ascii_idemp, IH.
Qed.

Section MovingStd.
Context {F : Type} `{Float64 F}.

(** X5: movingstd ignores the case of windowmode: calling it with a mode and
    with that mode lower-cased gives the same result or the same error. *)
Theorem movingstd_ignores_case (data : list (F * F * F)) (window_size : Z)
    (windowmode : string) :
  movingstd data window_size windowmode =
  movingstd data window_size (lower windowmode).
Proof. unfold movingstd. by rewrite lower_idemp. Qed.

Lemma elem_of_valid (w : string) :
  w ∈ valid <-> w = "central"%string \/ w = "forward"%string \/ w = "backward"%string.
Proof. unfold valid. rewrite !elem_of_cons, elem_of_nil. tauto. Qed.

(** X4: movingstd returns a result exactly when the lower-cased windowmode is
    'central', 'forward' or 'backward', 1 <= window_size <= len(data), and
    window_size >= 2 unless the mode is 'central'; in every other case it
    raises ValueError. *)
Theorem movingstd_returns_iff (data : list (F * F * F)) (window_size : Z)
    (windowmode : string) :
  let ok :=
    lower windowmode ∈ valid /\
    1 <= window_size <= Z.of_nat (length data) /\
    (lower windowmode <> "central"%string -> 2 <= window_size) in
  ((exists s, movingstd data window_size windowmode = Ok s) <-> ok) /\
  (~ ok -> movingstd data window_size windowmode = Raise ValueError).
Proof.
  intros ok. subst ok. unfold movingstd.
  destruct (decide (lower windowmode ∈ valid)) as [Hin | Hout].
  2:{ rewrite bool_decide_eq_false_2 by done. cbn [negb].
      split; [| done]. split; [intros [s Hs]; done | tauto]. }
  rewrite bool_decide_eq_true_2 by done. cbn [negb].
  destruct (Z.ltb_spec window_size 1) as [Hlt | Hge].
  { split; [| done]. split; [intros [s Hs]; done | intros (_ & Hws & _); lia]. }
  rewrite andb_false_r.
  destruct (Z.ltb_spec (Z.of_nat (length data)) window_size) as [Hn | Hn].
  { rewrite orb_true_r. split; [| done].
    split; [intros [s Hs]; done | intros (_ & Hws & _); lia]. }
  rewrite orb_false_r.
  apply elem_of_valid in Hin as Hcases.
  destruct Hcases as [E | [E | E]]; rewrite E in *.
  - change (String.eqb "central" "central") with true. cbn [negb andb].
    assert ("central"%string ∈ valid /\
            1 <= window_size <= Z.of_nat (length data) /\
            ("central"%string <> "central"%string -> 2 <= window_size)) as Hok
      by (split; [done |]; split; [lia | done]).
    split; [| intros Hn'; by destruct Hn'].
    split; [by intros _ | eauto].
  - change (String.eqb "forward" "central") with false.
    change (String.eqb "forward" "forward") with true. cbn [negb andb].
    destruct (Z.ltb_spec window_size 2) as [H2 | H2].
    + split; [| done]. split; [intros [s Hs]; done |].
      intros (_ & _ & Hdir). specialize (Hdir ltac:(done)). lia.
    + assert (1 <= window_size <= Z.of_nat (length data)) as Hws by lia.
      split; [| intros Hn'; exfalso; apply Hn'; auto].
      split; [intros _; auto | eauto].
  - change (String.eqb "backward" "central") with false.
    change (String.eqb "backward" "forward") with false.
    change (String.eqb "backward" "backward") with true. cbn [negb andb].
    destruct (Z.ltb_spec window_size 2) as [H2 | H2].
    + split; [| done]. split; [intros [s Hs]; done |].
      intros (_ & _ & Hdir). specialize (Hdir ltac:(done)). lia.
    + assert (1 <= window_size <= Z.of_nat (length data)) as Hws by lia.
      split; [| intros Hn'; exfalso; apply Hn'; auto].
      split; [intros _; auto | eauto].
Qed.

Lemma length_np_convolve_same (a v : list F) :
  length (np_convolve_same a v) = Nat.max (length a) (length v).
Proof. unfold np_convolve_same. by rewrite length_map, length_seq. Qed.

Lemma length_np_ones (n : Z) : length (np_ones n) = Z.to_nat n.
Proof. unfold np_ones. apply length_replicate. Qed.

Lemma length_moving (data2 data B : list F) (c d e : F) :
  length data2 = length data ->
  length (arr_mul_s
            (arr_sqrt
               (arr_div_s
                  (arr_sub (np_convolve_same data2 B)
                           (arr_mul_s (arr_sq (np_convolve_same data B)) c))
                  d)) e)
  = Nat.max (length data) (length B).
Proof.
  intros Hlen. unfold arr_mul_s, arr_sqrt, arr_div_s, arr_sub, arr_sq.
  rewrite !length_map, length_zip_with, !length_map,
    !length_np_convolve_same, Hlen. lia.
Qed.

(** X6: In the 'forward' and 'backward' modes, a result of movingstd has as
    many entries as the data has rows. *)
Theorem movingstd_directional_length (data : list (F * F * F))
    (window_size : Z) (windowmode : string) (s : list F) :
  lower windowmode <> "central"%string ->
  movingstd data window_size windowmode = Ok s ->
  length s = length data.
Proof.
  intros Hdir. unfold movingstd.
  destruct (decide (lower windowmode ∈ valid)) as [Hin | Hout];
    [| by rewrite bool_decide_eq_false_2].
  rewrite bool_decide_eq_true_2 by done. cbn [negb].
  destruct (Z.ltb_spec window_size 1); [done |].
  rewrite andb_false_r.
  destruct (Z.ltb_spec (Z.of_nat (length data)) window_size) as [Hn | Hn];
    [by rewrite orb_true_r |].
  rewrite orb_false_r.
  apply elem_of_valid in Hin as [E | [E | E]]; [done | |]; rewrite E.
  - change (String.eqb "forward" "central") with false.
    change (String.eqb "forward" "forward") with true. cbn [negb andb].
    destruct (Z.ltb_spec window_size 2); [done |].
    intros [= <-]. rewrite length_moving.
    + unfold arr_div_s, arr_sub_s, magnitude.
      rewrite !length_map, length_np_ones. lia.
    + unfold arr_sq. by rewrite length_map.
  - change (String.eqb "backward" "central") with false.
    change (String.eqb "backward" "forward") with false.
    change (String.eqb "backward" "backward") with true. cbn [negb andb].
    destruct (Z.ltb_spec window_size 2); [done |].
    intros [= <-]. rewrite length_moving.
    + unfold arr_div_s, arr_sub_s, magnitude.
      rewrite !length_map, length_np_ones. lia.
    + unfold arr_sq. by rewrite length_map.
Qed.

(** X7: In the 'central' mode, a result of movingstd has max(len(data),
    2*window_size + 1) entries (np.convolve with mode 'same' returns the
    length of the longer argument); it has the data's length exactly when
    2*window_size + 1 <= len(data), and is longer otherwise. *)
Theorem movingstd_central_length (data : list (F * F * F))
    (window_size : Z) (windowmode : string) (s : list F) :
  lower windowmode = "central"%string ->
  movingstd data window_size windowmode = Ok s ->
  length s = Nat.max (length data) (Z.to_nat (2 * window_size + 1)) /\
  (length s = length data <-> 2 * window_size + 1 <= Z.of_nat (length data)).
Proof.
  intros Hc. unfold movingstd. rewrite Hc.
  destruct (bool_decide ("central"%string ∈ valid)); [| done]. cbn [negb].
  destruct (Z.ltb_spec window_size 1); [done |].
  change (String.eqb "central" "central") with true. cbn [negb andb orb].
  destruct (Z.ltb_spec (Z.of_nat (length data)) window_size) as [Hn | Hn];
    [done |].
  intros [= <-]. rewrite length_moving.
  - unfold arr_div_s, arr_sub_s, magnitude.
    rewrite !length_map, length_np_ones. lia.
  - unfold arr_sq. by rewrite length_map.
Qed.

End MovingStd.

Lemma movingstd_directional_length_witness :
  let dataQ : list (Q * Q * Q) :=
    [(1, 0, 0); (0, 2, 0); (0, 0, 3); (1, 1, 1); (2, 0, 0)]%Q in
  exists s,
    lower "Backward" <> "central"%string /\
    @movingstd Q Q_float64 dataQ 3 "Backward" = Ok s /\
    length s = 5%nat.
Proof.
  intros dataQ.
  destruct (@movingstd Q Q_float64 dataQ 3 "Backward") as [s | e] eqn:E;
    [| vm_compute in E; discriminate].
  exists s.
  assert (lower "Backward" <> "central"%string) as Hdir by discriminate.
  split; [exact Hdir |]. split; [reflexivity |].
  exact (@movingstd_directional_length Q Q_float64 dataQ 3 "Backward" s Hdir E).
Defined.

Lemma movingstd_central_length_witness :
  let dataQ : list (Q * Q * Q) :=
    [(1, 0, 0); (0, 2, 0); (0, 0, 3); (1, 1, 1); (2, 0, 0)]%Q in
  exists s,
    lower "central" = "central"%string /\
    @movingstd Q Q_float64 dataQ 4 "central" = Ok s /\
    length s = 9%nat /\ length s <> length dataQ.
Proof.
  intros dataQ.
  destruct (@movingstd Q Q_float64 dataQ 4 "central") as [s | e] eqn:E;
    [| vm_compute in E; discriminate].
  exists s.
  assert (lower "central" = "central"%string) as Hc by reflexivity.
  split; [exact Hc |]. split; [reflexivity |].
  destruct (@movingstd_central_length Q Q_float64 dataQ 4 "central" s Hc E)
    as [Hlen _].
  split; [exact Hlen |]. rewrite Hlen. discriminate.
Defined.

(** X8: With Python numbers for the rates, resample raises ZeroDivisionError
    when target_fs is 0 (in original_fs / target_fs) or original_fs is 0 (in
    len(data) / resampling_factor), whatever the data. *)
Theorem resample_zero_rate {F} `{Float64 F} `{SciPySignal} {A}
    (data : list A) (labels chorea : list Z) (original_fs target_fs : Q) :
  (target_fs == 0)%Q \/ (original_fs == 0)%Q ->
  resample data labels chorea original_fs target_fs = Raise ZeroDivisionError.
Proof.
  intros Hzero. unfold resample.
  destruct (Qeq_bool target_fs 0) eqn:Et; [done |].
  destruct Hzero as [Ht | Ho].
  - apply Qeq_bool_iff in Ht. congruence.
  - assert (Qeq_bool (original_fs / target_fs) 0 = true) as ->; [| done].
    apply Qeq_bool_iff. rewrite Ho. unfold Qdiv. ring.
Qed.

Lemma resample_zero_rate_witness :
  ((30 == 0)%Q \/ (0 == 0)%Q) /\
  @resample Q Q_float64 nearest_signal Z [1; 2; 3] [0; 1; 1] [-1; 2; 2] 0 30
  = Raise ZeroDivisionError.
Proof.
  assert ((30 == 0)%Q \/ (0 == 0)%Q) as Hzero by (right; reflexivity).
  split; [exact Hzero |].
  exact (@resample_zero_rate Q Q_float64 nearest_signal Z
           [1; 2; 3] [0; 1; 1] [-1; 2; 2] 0%Q 30%Q Hzero).
Defined.

Lemma Qle_mult_ge_1 (n f : Q) : (0 <= n)%Q -> (1 <= f)%Q -> (n <= n * f)%Q.
Proof.
  intros Hn Hf. apply Qle_trans with (1 * n)%Q.
  - rewrite Qmult_1_l. apply Qle_refl.
  - rewrite (Qmult_comm n f). by apply Qmult_le_compat_r.
Qed.

Lemma Qle_mult_le_1 (n f : Q) : (0 <= n)%Q -> (f <= 1)%Q -> (n * f <= n)%Q.
Proof.
  intros Hn Hf. apply Qle_trans with (1 * n)%Q.
  - rewrite (Qmult_comm n f). by apply Qmult_le_compat_r.
  - rewrite Qmult_1_l. apply Qle_refl.
Qed.

Section Resample.
Context {F : Type} `{Float64 F} `{SciPySignal}.
Hypothesis contract : resample_contract.

Lemma resample_returned_lengths {A} (data : list A) (labels chorea : list Z)
    (original_fs target_fs : Q) (d : list A) (l c : list Z) :
  (0 < original_fs)%Q -> (0 < target_fs)%Q ->
  resample data labels chorea original_fs target_fs = Ok (d, l, c) ->
  let num :=
    Qfloor (inject_Z (Z.of_nat (length data)) / (original_fs / target_fs)) in
  0 <= num /\
  length d = Z.to_nat num /\ length l = Z.to_nat num /\ length c = Z.to_nat num.
Proof.
  intros Ho Ht Hr num.
  destruct contract as [Hlen _].
  pose proof (resampling_factor_pos _ _ Ho Ht) as Hf.
  pose proof (target_count_nonneg (length data) _ Hf) as Hq.
  assert (0 <= num) as Hnum.
  { subst num. change 0 with (Qfloor 0). by apply Qfloor_resp_le. }
  split; [done |].
  revert Hr. unfold resample.
  rewrite (Qeq_bool_pos _ Ht), (Qeq_bool_pos _ Hf), (py_int_floor _ Hq).
  fold num.
  destruct (signal_resample data num) as [rd | e] eqn:Ed; [| done].
  destruct (signal_resample (map f_of_Z labels) num) as [rl | e] eqn:El; [| done].
  destruct (signal_resample (map f_of_Z chorea) num) as [rc | e] eqn:Ec; [| done].
  simpl. intros [= <- <- <-]. rewrite !length_map.
  by rewrite (Hlen _ _ _ _ Ed), (Hlen _ _ _ _ El), (Hlen _ _ _ _ Ec).
Qed.

(** X9: With positive rates and a signal.resample that returns as many samples
    as asked, the three arrays that resample returns have one length; it is at
    most len(data) when target_fs <= original_fs, at least len(data) when
    original_fs <= target_fs, and exactly len(data) when the rates are equal. *)
Theorem resample_length_follows_rates {A} (data : list A)
    (labels chorea : list Z) (original_fs target_fs : Q)
    (d : list A) (l c : list Z) :
  (0 < original_fs)%Q -> (0 < target_fs)%Q ->
  resample data labels chorea original_fs target_fs = Ok (d, l, c) ->
  length l = length d /\ length c = length d /\
  ((target_fs <= original_fs)%Q -> (length d <= length data)%nat) /\
  ((original_fs <= target_fs)%Q -> (length data <= length d)%nat) /\
  ((original_fs == target_fs)%Q -> length d = length data).
Proof.
  intros Ho Ht Hr.
  destruct (resample_returned_lengths data labels chorea original_fs target_fs
              d l c Ho Ht Hr) as (Hnum & Hd & Hl & Hc).
  rewrite Hl, Hc, Hd. split; [done |]. split; [done |].
  pose proof (resampling_factor_pos _ _ Ho Ht) as Hf.
  set (n := inject_Z (Z.of_nat (length data))) in *.
  assert (0 <= n)%Q as Hn by (subst n; unfold Qle; simpl; lia).
  assert ((target_fs <= original_fs)%Q ->
          Qfloor (n / (original_fs / target_fs)) <= Z.of_nat (length data))
    as Hdown.
  { intros Hle. rewrite <- (Qfloor_Z (Z.of_nat (length data))).
    apply Qfloor_resp_le. fold n.
    apply Qle_shift_div_r; [done |].
    apply Qle_mult_ge_1; [done |].
    apply Qle_shift_div_l; [done |]. by rewrite Qmult_1_l. }
  assert ((original_fs <= target_fs)%Q ->
          Z.of_nat (length data) <= Qfloor (n / (original_fs / target_fs)))
    as Hup.
  { intros Hle. rewrite <- (Qfloor_Z (Z.of_nat (length data))) at 1.
    apply Qfloor_resp_le. fold n.
    apply Qle_shift_div_l; [done |].
    apply Qle_mult_le_1; [done |].
    apply Qle_shift_div_r; [done |]. by rewrite Qmult_1_l. }
  split; [intros Hle; specialize (Hdown Hle); lia |].
  split; [intros Hle; specialize (Hup Hle); lia |].
  intros Heq.
  assert (target_fs <= original_fs)%Q as H1 by (rewrite Heq; apply Qle_refl).
  assert (original_fs <= target_fs)%Q as H2 by (rewrite Heq; apply Qle_refl).
  specialize (Hdown H1). specialize (Hup H2). lia.
Qed.

End Resample.

Lemma resample_length_follows_rates_witness :
  let data := [10; 11; 12; 13; 14; 15; 16; 17; 18; 19] in
  let labels := [0; 0; 0; 1; 1; 1; 1] in
  let chorea := [-1; -1; 2; 2] in
  (0 < 100)%Q /\ (0 < 30)%Q /\ (30 <= 100)%Q /\
  exists d l c,
    @resample Q Q_float64 nearest_signal Z data labels chorea 100 30 = Ok (d, l, c) /\
    length l = length d /\ length c = length d /\
    (length d <= length data)%nat.
Proof.
  intros data labels chorea.
  assert (0 < 100)%Q as Ho by reflexivity.
  assert (0 < 30)%Q as Ht by reflexivity.
  assert (30 <= 100)%Q as Hle by (vm_compute; discriminate).
  split; [exact Ho |]. split; [exact Ht |]. split; [exact Hle |].
  destruct (@resample Q Q_float64 nearest_signal Z data labels chorea 100 30)
    as [[[d l] c] | e] eqn:E; [| vm_compute in E; discriminate].
  exists d, l, c. split; [reflexivity |].
  destruct (@resample_length_follows_rates Q Q_float64 nearest_signal
              nearest_resample_contract Z data labels chorea 100 30 d l c
              Ho Ht E) as (Hl & Hc & Hdown & _).
  split; [exact Hl |]. split; [exact Hc |]. exact (Hdown Hle).
Defined.

End SignalExtra.

(** ** More about [data_windowing] *)

Module WindowingExtra.
Import Preprocessing WindowingSpec.

(** X10: For label and severity arrays as long as the data and 0 <=
    window_overlap < window_size, data_windowing returns exactly when 2 <=
    window_size <= len(data) and at least two windows fit, i.e. (len(data) -
    window_overlap) // (window_size - window_overlap) >= 2. *)
Theorem data_windowing_returns_iff {A} (data : list A) (labels chorea : list Z)
    (W O : Z) (std_idx : loc) (σ : gmap nat (list Z)) (mask : list Z) :
  σ !! std_idx = Some mask ->
  0 <= O < W ->
  length labels = length data -> length chorea = length data ->
  (exists out σ', data_windowing data labels chorea W O std_idx σ = (Ok out, σ'))
  <->
  2 <= W <= Z.of_nat (length data) /\
  2 <= (Z.of_nat (length data) - O) / (W - O).
Proof.
  intros Hσ HO Hl Hc. split.
  - intros (out & σ' & Hrun).
    pose proof (data_windowing_returns_only_if data labels chorea W O std_idx
                  σ σ' mask out Hσ HO Hl Hc Hrun). lia.
  - intros (HW & Hk). eexists _, _.
    apply (data_windowing_returns data labels chorea W O std_idx σ mask);
      try done; try lia.
    unfold window_count. lia.
Qed.

(** X11: data_windowing raises ValueError for a negative window_size
    (np.empty, before anything is written), ZeroDivisionError when
    window_overlap equals a non-negative window_size (the floor division by
    non_overlap = 0), and ValueError when a non-negative window_size with
    another overlap is larger than the data (sliding_window_view). *)
Theorem data_windowing_argument_errors {A} (data : list A)
    (labels chorea : list Z) (W O : Z) (std_idx : loc)
    (σ : gmap nat (list Z)) (mask : list Z) :
  σ !! std_idx = Some mask ->
  (W < 0 ->
   data_windowing data labels chorea W O std_idx σ = (Raise ValueError, σ)) /\
  (0 <= W -> O = W ->
   fst (data_windowing data labels chorea W O std_idx σ) = Raise ZeroDivisionError) /\
  (0 <= W -> O <> W -> Z.of_nat (length data) < W ->
   fst (data_windowing data labels chorea W O std_idx σ) = Raise ValueError).
Proof.
  intros Hσ. unfold data_windowing. split; [| split].
  - intros HW. run_store.
    by destruct (Z.ltb_spec W 0); [| lia].
  - intros HW ->. run_store.
    destruct (Z.ltb_spec W 0); [lia |].
    rewrite Hσ, Z.sub_diag. done.
  - intros HW HO HN.
    assert (sliding_window_view data W = Raise ValueError) as ->.
    { unfold sliding_window_view.
      destruct (Z.ltb_spec W 0); [done |].
      by destruct (Z.ltb_spec (Z.of_nat (length data)) W); [| lia]. }
    run_store. cbv [result_bind].
    destruct (Z.ltb_spec W 0); [lia |].
    destruct (Z.eqb_spec (W - O) 0); [lia |].
    by rewrite Hσ, lookup_insert_eq.
Qed.

Lemma squeeze_single_row (r : list Z) (W : Z) :
  (2 <= length r)%nat -> squeeze [r] W = Sq1 r.
Proof. intros Hr. by destruct r as [| x [| y r]]; simpl in *; try lia. Qed.

(** X12: When the arguments are valid but exactly one window fits ((len(data)
    - overlap) < 2 * non_overlap), squeeze() removes the window axis of the
    label and severity windows and data_windowing raises AxisError at
    np.sum(..., axis=1). *)
Theorem data_windowing_single_window_raises {A} (data : list A)
    (labels chorea : list Z) (W O : Z) (std_idx : loc)
    (σ : gmap nat (list Z)) (mask : list Z) :
  σ !! std_idx = Some mask ->
  0 <= O < W -> 2 <= W <= Z.of_nat (length data) ->
  length labels = length data -> length chorea = length data ->
  Z.of_nat (length data) - O < 2 * (W - O) ->
  fst (data_windowing data labels chorea W O std_idx σ) = Raise AxisError.
Proof.
  intros Hσ HO HW Hl Hc Hone.
  assert (window_count (length data) W O = 1%nat) as Hk.
  { pose proof (window_count_pos (length data) W O HO ltac:(lia)).
    unfold window_count in *.
    assert ((Z.of_nat (length data) - O) / (W - O) < 2); [| lia].
    apply Z.div_lt_upper_bound; lia. }
  assert (length (window_at W (W - O) 0 labels) = Z.to_nat W) as Hwl
    by (apply window_at_length; rewrite ?Hl; lia).
  assert (length (window_at W (W - O) 0 chorea) = Z.to_nat W) as Hwc
    by (apply window_at_length; rewrite ?Hc; lia).
  unfold data_windowing.
  rewrite windows_ok, !windows_then by lia. rewrite Hl, Hc, Hk.
  cbn [seq map].
  rewrite !squeeze_single_row by lia.
  run_store. cbv [result_ret shape0 axis1].
  destruct (Z.ltb_spec W 0); [lia |].
  destruct (Z.eqb_spec (W - O) 0); [lia |].
  by rewrite Hσ, lookup_insert_eq, insert_insert_eq.
Qed.

Lemma window_at_overlap {A} (x : list A) (W O : Z) (i : nat) :
  0 <= O < W ->
  drop (Z.to_nat (W - O)) (window_at W (W - O) i x) =
  take (Z.to_nat O) (window_at W (W - O) (S i) x).
Proof.
  intros HO. unfold window_at.
  rewrite take_take, Nat.min_l by lia.
  replace (Z.to_nat W) with (Z.to_nat (W - O) + Z.to_nat O)%nat by lia.
  rewrite <- take_drop_commute, drop_drop.
  do 2 f_equal. lia.
Qed.

(** X13: In a result of data_windowing, consecutive data windows share
    window_overlap samples: the last window_overlap samples of window i are
    the first window_overlap samples of window i+1. *)
Theorem data_windowing_windows_overlap {A} (data : list A)
    (labels chorea : list Z) (W O : Z) (std_idx : loc)
    (σ σ' : gmap nat (list Z)) (mask : list Z) (out : windowed A) :
  σ !! std_idx = Some mask ->
  0 <= O < W ->
  length labels = length data -> length chorea = length data ->
  data_windowing data labels chorea W O std_idx σ = (Ok out, σ') ->
  forall i, Z.of_nat i + 1 < NumWin out ->
    exists w1 w2,
      windowed_data_all out !! i = Some w1 /\
      windowed_data_all out !! S i = Some w2 /\
      drop (Z.to_nat (W - O)) w1 = take (Z.to_nat O) w2.
Proof.
  intros Hσ HO Hl Hc Hrun.
  destruct (data_windowing_returns_only_if data labels chorea W O std_idx
              σ σ' mask out Hσ HO Hl Hc Hrun) as (HW & HN & Hk).
  assert (2 <= window_count (length data) W O)%nat as Hk'
    by (unfold window_count; lia).
  rewrite (data_windowing_returns data labels chorea W O std_idx σ mask
             Hσ ltac:(lia) HO Hl Hc ltac:(lia) Hk') in Hrun.
  injection Hrun as <- _. cbn [NumWin windowed_data_all].
  intros i Hi. eexists _, _.
  rewrite !list_lookup_fmap, !lookup_seq_lt by lia.
  split; [reflexivity |]. split; [reflexivity |].
  by apply window_at_overlap.
Qed.

Lemma concat_windows_no_overlap {A} (x : list A) (W : nat) (k : nat) :
  concat (map (fun i => take W (drop (i * W) x)) (seq 0 k)) = take (k * W) x.
Proof.
  induction k as [| k IH]; [done |].
  rewrite seq_S, map_app, concat_app, IH. cbn [map concat Nat.add].
  rewrite app_nil_r, take_take_drop. f_equal. lia.
Qed.

(** X14: With window_overlap = 0, the data windows of a result, one after the
    other, are the first NumWin * window_size samples of the data, NumWin =
    len(data) // window_size, and fewer than window_size samples at the end
    are left out. *)
Theorem data_windowing_tiles_without_overlap {A} (data : list A)
    (labels chorea : list Z) (W : Z) (std_idx : loc)
    (σ σ' : gmap nat (list Z)) (mask : list Z) (out : windowed A) :
  σ !! std_idx = Some mask ->
  length labels = length data -> length chorea = length data ->
  data_windowing data labels chorea W 0 std_idx σ = (Ok out, σ') ->
  concat (windowed_data_all out) = take (Z.to_nat (NumWin out * W)) data /\
  NumWin out = Z.of_nat (length data) / W /\
  0 <= Z.of_nat (length data) - NumWin out * W < W.
Proof.
  intros Hσ Hl Hc Hrun.
  destruct (decide (0 < W)) as [HW0 | HW0].
  2:{ exfalso. revert Hrun. unfold data_windowing. run_store.
      destruct (Z.ltb_spec W 0); [done |].
      assert (W = 0) as -> by lia. cbn [Z.sub Z.eqb]. by rewrite Hσ. }
  destruct (data_windowing_returns_only_if data labels chorea W 0 std_idx
              σ σ' mask out Hσ ltac:(lia) Hl Hc Hrun) as (HW & HN & Hk).
  assert (2 <= window_count (length data) W 0)%nat as Hk'
    by (unfold window_count; lia).
  rewrite Z.sub_0_r in Hk.
  rewrite (data_windowing_returns data labels chorea W 0 std_idx σ mask
             Hσ ltac:(lia) ltac:(lia) Hl Hc ltac:(lia) Hk') in Hrun.
  injection Hrun as <- _. cbn [NumWin windowed_data_all].
  unfold window_count, window_at. rewrite !Z.sub_0_r.
  rewrite Z2Nat.id by (apply Z.div_pos; lia).
  pose proof (Z.mul_div_le (Z.of_nat (length data)) W HW0) as Hle.
  pose proof (Z.mul_succ_div_gt (Z.of_nat (length data)) W HW0) as Hgt.
  split; [| split; [done | lia]].
  rewrite concat_windows_no_overlap. f_equal.
  rewrite Z2Nat.inj_mul; [lia | apply Z.div_pos; lia | lia].
Qed.





Lemma occurrences_binary (w : list Z) :
  (forall x, x ∈ w -> x = 0 \/ x = 1) ->
  (occurrences 0 w + occurrences 1 w)%nat = length w.
Proof.
  unfold occurrences. induction w as [| x w IH]; intros Hbin; [done |].
  rewrite !filter_cons.
  assert (forall y, y ∈ w -> y = 0 \/ y = 1) as Hw
    by (intros y Hy; apply Hbin; by right).
  specialize (IH Hw).
  destruct (Hbin x) as [-> | ->]; [left | |];
    repeat case_decide; try lia; cbn [length]; lia.
Qed.

Lemma lowest_mode_binary (w : list Z) (m : Z) :
  (forall x, x ∈ w -> x = 0 \/ x = 1) ->
  lowest_mode w m ->
  m = if Z.of_nat (length w) <? 2 * Z.of_nat (occurrences 1 w) then 1 else 0.
Proof.
  intros Hbin [Hm Hlow].
  pose proof (occurrences_binary w Hbin) as Hsum.
  destruct (Z.ltb_spec (Z.of_nat (length w)) (2 * Z.of_nat (occurrences 1 w)))
    as [Hmaj | Hmin].
  - destruct (Hbin m Hm) as [-> | ->]; [| done].
    assert (1 ∈ w) as H1 by (apply occurrences_pos; lia).
    destruct (Hlow 1 H1) as [Hle _]. lia.
  - destruct (Hbin m Hm) as [-> | ->]; [done |].
    assert (0 ∈ w) as H0.
    { apply occurrences_pos. apply occurrences_pos in Hm. lia. }
    destruct (Hlow 0 H0) as [Hle Htie].
    assert (occurrences 0 w = occurrences 1 w) as Heq by lia.
    specialize (Htie Heq). lia.
Qed.

(** X16: When every label is 0 or 1, the label of window i is 1 exactly when
    more than half of the window's samples are 1; a tie gives 0. *)
Theorem data_windowing_binary_majority {A} (data : list A)
    (labels chorea : list Z) (W O : Z) (std_idx : loc)
    (σ σ' : gmap nat (list Z)) (mask : list Z) (out : windowed A) :
  σ !! std_idx = Some mask ->
  0 <= O < W ->
  length labels = length data -> length chorea = length data ->
  (forall x, x ∈ labels -> x = 0 \/ x = 1) ->
  data_windowing data labels chorea W O std_idx σ = (Ok out, σ') ->
  forall i, Z.of_nat i < NumWin out ->
    windowed_labels_all out !! i =
      Some (if W <? 2 * Z.of_nat (occurrences 1 (window_at W (W - O) i labels))
            then 1 else 0).
Proof.
  intros Hσ HO Hl Hc Hbin Hrun.
  destruct (data_windowing_returns_only_if data labels chorea W O std_idx
              σ σ' mask out Hσ HO Hl Hc Hrun) as (HW & HN & Hk).
  assert (2 <= window_count (length data) W O)%nat as Hk'
    by (unfold window_count; lia).
  rewrite (data_windowing_returns data labels chorea W O std_idx σ mask
             Hσ ltac:(lia) HO Hl Hc ltac:(lia) Hk') in Hrun.
  injection Hrun as <- _. cbn [NumWin windowed_labels_all].
  intros i Hi.
  set (rows := map (fun i => window_at W (W - O) i labels)
                   (seq 0 (window_count (length data) W O))).
  set (w := window_at W (W - O) i labels).
  assert (rows !! i = Some w) as Hrow.
  { subst rows w. rewrite list_lookup_fmap, lookup_seq_lt by lia. done. }
  assert (length w = Z.to_nat W) as Hlen.
  { subst w. apply window_at_length; rewrite ?Hl; lia. }
  unfold mode. rewrite list_lookup_fmap, Hrow. cbn [fmap option_fmap option_map].
  f_equal.
  assert (lowest_mode w (fst (foldl (mode_step w) (0, 0) (np_unique (concat rows)))))
    as Hmode.
  { apply mode_row_spec.
    - apply list_elem_of_lookup. eauto.
    - intros E. rewrite E in Hlen. simpl in Hlen. lia. }
  rewrite (lowest_mode_binary w _) at 1; [| | exact Hmode].
  - rewrite Hlen, Z2Nat.id by lia. done.
  - intros x Hx. apply Hbin. subst w. unfold window_at in Hx.
    by apply subseteq_take, subseteq_drop in Hx.
Qed.

(** X17: The inclusion array that data_windowing returns has one entry for
    each 1 of the mask std_idx; its first upper_limit - window_overlap entries
    are 1 and all later ones 0, where upper_limit = len(data) // non_overlap *
    non_overlap, and upper_limit - window_overlap is positive. *)
Theorem data_windowing_inclusion_array {A} (data : list A)
    (labels chorea : list Z) (W O : Z) (std_idx : loc)
    (σ σ' : gmap nat (list Z)) (mask : list Z) (out : windowed A) :
  σ !! std_idx = Some mask ->
  0 <= O < W ->
  length labels = length data -> length chorea = length data ->
  data_windowing data labels chorea W O std_idx σ = (Ok out, σ') ->
  let upper_limit := Z.of_nat (length data) / (W - O) * (W - O) in
  exists a,
    σ' !! inclusion_idx out = Some a /\
    length a = occurrences 1 mask /\
    0 < upper_limit - O /\
    forall j, (j < length a)%nat ->
      a !! j = Some (if Z.of_nat j <? upper_limit - O then 1 else 0).
Proof.
  intros Hσ HO Hl Hc Hrun upper_limit.
  destruct (data_windowing_returns_only_if data labels chorea W O std_idx
              σ σ' mask out Hσ HO Hl Hc Hrun) as (HW & HN & Hk).
  assert (2 <= window_count (length data) W O)%nat as Hk'
    by (unfold window_count; lia).
  rewrite (data_windowing_returns data labels chorea W O std_idx σ mask
             Hσ ltac:(lia) HO Hl Hc ltac:(lia) Hk') in Hrun.
  injection Hrun as <- <-. cbn [inclusion_idx].
  rewrite lookup_insert_eq. eexists. split; [reflexivity |].
  assert (W - O < upper_limit - O) as Hup.
  { subst upper_limit.
    pose proof (Z.mul_div_le (Z.of_nat (length data) - O) (W - O) ltac:(lia)).
    pose proof (Z.mul_succ_div_gt (Z.of_nat (length data)) (W - O) ltac:(lia)).
    nia. }
  unfold excluded_tail. fold upper_limit.
  set (ones := filter (fun y => y = 1) mask).
  rewrite ReadDataSpec.slice_bound_nonneg by lia.
  split; [| split; [lia |]].
  - rewrite length_app, length_take, length_replicate.
    unfold occurrences. fold ones. lia.
  - rewrite length_app, length_take, length_replicate. intros j Hj.
    destruct (Z.ltb_spec (Z.of_nat j) (upper_limit - O)) as [Hlt | Hge].
    + rewrite lookup_app_l by (rewrite length_take; lia).
      rewrite lookup_take_lt by lia.
      destruct (lookup_lt_is_Some_2 ones j ltac:(lia)) as [x Hx].
      rewrite Hx. f_equal.
      assert (x ∈ ones) as Hin by (apply list_elem_of_lookup; eauto).
      subst ones. by apply list_elem_of_filter in Hin as [-> _].
    + rewrite lookup_app_r by (rewrite length_take; lia).
      rewrite length_take. apply lookup_replicate_2. lia.
Qed.

(** *** The extras at concrete inputs *)

Lemma data_windowing_returns_iff_witness :
  let data := seqZ 0 10 in
  let zeros := replicate 10 0 in
  let mask := replicate 10 1 in
  let σ : gmap nat (list Z) := {[ 0%nat := mask ]} in
  σ !! 0%nat = Some mask /\ 0 <= 2 < 4 /\ length zeros = length data /\
  exists out σ', data_windowing data zeros zeros 4 2 0%nat σ = (Ok out, σ').
Proof.
  intros data zeros mask σ.
  assert (σ !! 0%nat = Some mask) as Hσ by apply lookup_singleton_eq.
  assert (length zeros = length data) as Hl by reflexivity.
  split; [exact Hσ |]. split; [lia |]. split; [exact Hl |].
  apply (proj2 (data_windowing_returns_iff data zeros zeros 4 2 0%nat σ mask
                  Hσ ltac:(lia) Hl Hl)).
  vm_compute. repeat split; discriminate.
Defined.

Lemma data_windowing_argument_errors_witness :
  let data := seqZ 0 3 in
  let zeros := replicate 3 0 in
  let mask := replicate 3 1 in
  let σ : gmap nat (list Z) := {[ 0%nat := mask ]} in
  σ !! 0%nat = Some mask /\
  fst (data_windowing data zeros zeros 4 4 0%nat σ) = Raise ZeroDivisionError /\
  fst (data_windowing data zeros zeros 4 2 0%nat σ) = Raise ValueError.
Proof.
  intros data zeros mask σ.
  assert (σ !! 0%nat = Some mask) as Hσ by apply lookup_singleton_eq.
  split; [exact Hσ |].
  split.
  - apply (proj1 (proj2 (data_windowing_argument_errors data zeros zeros 4 4
                           0%nat σ mask Hσ))); lia.
  - apply (proj2 (proj2 (data_windowing_argument_errors data zeros zeros 4 2
                           0%nat σ mask Hσ))); [lia | lia |].
    vm_compute. reflexivity.
Defined.

Lemma data_windowing_single_window_raises_witness :
  let data := seqZ 0 4 in
  let zeros := replicate 4 0 in
  let mask := replicate 4 1 in
  let σ : gmap nat (list Z) := {[ 0%nat := mask ]} in
  σ !! 0%nat = Some mask /\ 0 <= 2 < 4 /\ 2 <= 4 <= Z.of_nat (length data) /\
  length zeros = length data /\
  Z.of_nat (length data) - 2 < 2 * (4 - 2) /\
  fst (data_windowing data zeros zeros 4 2 0%nat σ) = Raise AxisError.
Proof.
  intros data zeros mask σ.
  assert (σ !! 0%nat = Some mask) as Hσ by apply lookup_singleton_eq.
  assert (length zeros = length data) as Hl by reflexivity.
  assert (2 <= 4 <= Z.of_nat (length data)) as HW by (vm_compute; split; discriminate).
  assert (Z.of_nat (length data) - 2 < 2 * (4 - 2)) as Hone by (vm_compute; reflexivity).
  split; [exact Hσ |]. split; [lia |]. split; [exact HW |].
  split; [exact Hl |]. split; [exact Hone |].
  exact (data_windowing_single_window_raises data zeros zeros 4 2 0%nat σ mask
           Hσ ltac:(lia) HW Hl Hl Hone).
Defined.


Lemma data_windowing_windows_overlap_witness :
  let data := seqZ 0 10 in
  let labels := [1; 1; 0; 0; 1; 1; 1; 0; 0; 0] in
  let chorea := [1; 1; 2; -1; -1; -1; 3; 0; 0; -1] in
  let mask := [1; 0; 1; 1; 1; 1; 1; 1; 1; 1] in
  let σ : gmap nat (list Z) := {[ 0%nat := mask ]} in
  σ !! 0%nat = Some mask /\ 0 <= 2 < 4 /\
  length labels = length data /\ length chorea = length data /\
  exists out σ',
    data_windowing data labels chorea 4 2 0%nat σ = (Ok out, σ') /\
    exists w1 w2,
      windowed_data_all out !! 0%nat = Some w1 /\
      windowed_data_all out !! 1%nat = Some w2 /\
      drop 2 w1 = take 2 w2.
Proof.
  intros data labels chorea mask σ.
  assert (σ !! 0%nat = Some mask) as Hσ by apply lookup_singleton_eq.
  assert (length labels = length data) as Hl by reflexivity.
  assert (length chorea = length data) as Hc by reflexivity.
  split; [exact Hσ |]. split; [lia |]. split; [exact Hl |]. split; [exact Hc |].
  destruct (data_windowing data labels chorea 4 2 0%nat σ) as [[out | e] σ'] eqn:Hrun;
    [| vm_compute in Hrun; discriminate].
  assert (NumWin out = 4) as Hnum
    by (pose proof Hrun as Hrun'; vm_compute in Hrun';
        injection Hrun' as <- _; reflexivity).
  exists out, σ'. split; [reflexivity |].
  apply (data_windowing_windows_overlap data labels chorea 4 2 0%nat σ σ' mask
           out Hσ ltac:(lia) Hl Hc Hrun 0%nat).
  rewrite Hnum. reflexivity.
Defined.

Lemma data_windowing_tiles_without_overlap_witness :
  let data := seqZ 0 10 in
  let labels := [1; 1; 0; 0; 1; 1; 1; 0; 0; 0] in
  let chorea := [1; 1; 2; -1; -1; -1; 3; 0; 0; -1] in
  let mask := [1; 0; 1; 1; 1; 1; 1; 1; 1; 1] in
  let σ : gmap nat (list Z) := {[ 0%nat := mask ]} in
  σ !! 0%nat = Some mask /\
  length labels = length data /\ length chorea = length data /\
  exists out σ',
    data_windowing data labels chorea 4 0 0%nat σ = (Ok out, σ') /\
    concat (windowed_data_all out) = [0; 1; 2; 3; 4; 5; 6; 7] /\
    NumWin out = 2.
Proof.
  intros data labels chorea mask σ.
  assert (σ !! 0%nat = Some mask) as Hσ by apply lookup_singleton_eq.
  assert (length labels = length data) as Hl by reflexivity.
  assert (length chorea = length data) as Hc by reflexivity.
  split; [exact Hσ |]. split; [exact Hl |]. split; [exact Hc |].
  destruct (data_windowing data labels chorea 4 0 0%nat σ) as [[out | e] σ'] eqn:Hrun;
    [| vm_compute in Hrun; discriminate].
  assert (NumWin out = 2) as Hnum
    by (pose proof Hrun as Hrun'; vm_compute in Hrun';
        injection Hrun' as <- _; reflexivity).
  exists out, σ'. split; [reflexivity |].
  destruct (data_windowing_tiles_without_overlap data labels chorea 4 0%nat
              σ σ' mask out Hσ Hl Hc Hrun) as (Htile & _ & _).
  split; [| exact Hnum]. rewrite Htile, Hnum. reflexivity.
Defined.


Lemma data_windowing_binary_majority_witness :
  let data := seqZ 0 10 in
  let labels := [1; 1; 0; 0; 1; 1; 1; 0; 0; 0] in
  let chorea := [1; 1; 2; -1; -1; -1; 3; 0; 0; -1] in
  let mask := [1; 0; 1; 1; 1; 1; 1; 1; 1; 1] in
  let σ : gmap nat (list Z) := {[ 0%nat := mask ]} in
  σ !! 0%nat = Some mask /\ 0 <= 2 < 4 /\
  length labels = length data /\ length chorea = length data /\
  (forall x, x ∈ labels -> x = 0 \/ x = 1) /\
  exists out σ',
    data_windowing data labels chorea 4 2 0%nat σ = (Ok out, σ') /\
    windowed_labels_all out !! 0%nat = Some 0 /\
    windowed_labels_all out !! 2%nat = Some 1.
Proof.
  intros data labels chorea mask σ.
  assert (σ !! 0%nat = Some mask) as Hσ by apply lookup_singleton_eq.
  assert (length labels = length data) as Hl by reflexivity.
  assert (length chorea = length data) as Hc by reflexivity.
  assert (forall x, x ∈ labels -> x = 0 \/ x = 1) as Hbin.
  { intros x Hx. apply list_elem_of_In in Hx. simpl in Hx. intuition lia. }
  split; [exact Hσ |]. split; [lia |]. split; [exact Hl |]. split; [exact Hc |].
  split; [exact Hbin |].
  destruct (data_windowing data labels chorea 4 2 0%nat σ) as [[out | e] σ'] eqn:Hrun;
    [| vm_compute in Hrun; discriminate].
  assert (NumWin out = 4) as Hnum
    by (pose proof Hrun as Hrun'; vm_compute in Hrun';
        injection Hrun' as <- _; reflexivity).
  exists out, σ'. split; [reflexivity |].
  split.
  - rewrite (data_windowing_binary_majority data labels chorea 4 2 0%nat σ σ'
               mask out Hσ ltac:(lia) Hl Hc Hbin Hrun 0%nat)
      by (rewrite Hnum; reflexivity).
    reflexivity.
  - rewrite (data_windowing_binary_majority data labels chorea 4 2 0%nat σ σ'
               mask out Hσ ltac:(lia) Hl Hc Hbin Hrun 2%nat)
      by (rewrite Hnum; reflexivity).
    reflexivity.
Defined.

Lemma data_windowing_inclusion_array_witness :
  let data := seqZ 0 10 in
  let labels := [1; 1; 0; 0; 1; 1; 1; 0; 0; 0] in
  let chorea := [1; 1; 2; -1; -1; -1; 3; 0; 0; -1] in
  let mask := [1; 0; 1; 1; 1; 1; 1; 1; 1; 1] in
  let σ : gmap nat (list Z) := {[ 0%nat := mask ]} in
  σ !! 0%nat = Some mask /\ 0 <= 2 < 4 /\
  length labels = length data /\ length chorea = length data /\
  exists out σ' a,
    data_windowing data labels chorea 4 2 0%nat σ = (Ok out, σ') /\
    σ' !! inclusion_idx out = Some a /\ length a = 9%nat /\
    a !! 7%nat = Some 1 /\ a !! 8%nat = Some 0.
Proof.
  intros data labels chorea mask σ.
  assert (σ !! 0%nat = Some mask) as Hσ by apply lookup_singleton_eq.
  assert (length labels = length data) as Hl by reflexivity.
  assert (length chorea = length data) as Hc by reflexivity.
  split; [exact Hσ |]. split; [lia |]. split; [exact Hl |]. split; [exact Hc |].
  destruct (data_windowing data labels chorea 4 2 0%nat σ) as [[out | e] σ'] eqn:Hrun;
    [| vm_compute in Hrun; discriminate].
  destruct (data_windowing_inclusion_array data labels chorea 4 2 0%nat σ σ'
              mask out Hσ ltac:(lia) Hl Hc Hrun) as (a & Ha & Hlen & _ & Hval).
  exists out, σ', a. split; [reflexivity |]. split; [exact Ha |].
  assert (length a = 9%nat) as Hnine by (rewrite Hlen; reflexivity).
  split; [exact Hnine |]. split.
  - rewrite (Hval 7%nat) by (rewrite Hnine; lia). reflexivity.
  - rewrite (Hval 8%nat) by (rewrite Hnine; lia). reflexivity.
Defined.

End WindowingExtra.

(** ** Properties of the readers and of [main] *)

Module FilesSpec.
Import ReadData Preprocessing ReadDataFiles.

(** *** The dictionary of synchronisation parameters *)

Lemma before_underscore_idemp (s : string) :
  before_underscore (before_underscore s) = before_underscore s.
Proof.
  induction s as [| c s IH]; [done |].
  cbn [before_underscore]. destruct (Ascii.eqb c "_") eqn:E; [done |].
  cbn [before_underscore]. by rewrite E, IH.
Qed.

Section Dict.
Context {V : Type}.
Implicit Types (d : list (string * V)) (k : string) (v : V).

Lemma dict_get_set k k' v d :
  dict_get k' (dict_set k v d) = if decide (k = k') then Some v else dict_get k' d.
Proof.
  unfold dict_get. induction d as [| [k0 v0] d IH]; cbn [dict_set List.find fst].
  - destruct (String.eqb_spec k k'); case_decide; done.
  - destruct (String.eqb_spec k0 k) as [-> | Hne]; cbn [List.find fst].
    + destruct (String.eqb_spec k k'); case_decide; done.
    + destruct (String.eqb_spec k0 k'); [| done].
      case_decide; [congruence | done].
Qed.

Lemma dict_set_keys k v d :
  map fst (dict_set k v d) =
  if decide (k ∈ map fst d) then map fst d else map fst d ++ [k].
Proof.
  induction d as [| [k0 v0] d IH]; cbn [dict_set map fst].
  - case_decide as Hin; [by apply not_elem_of_nil in Hin | done].
  - destruct (String.eqb_spec k0 k) as [-> | Hne]; cbn [map fst].
    + rewrite decide_True by left. done.
    + rewrite IH. destruct (decide (k ∈ map fst d)) as [Hin | Hout].
      * rewrite decide_True by (by right). done.
      * rewrite decide_False; [done |].
        intros [-> | Hin]%elem_of_cons; done.
Qed.

Lemma dict_of_snoc (pairs : list (string * V)) k v :
  dict_of (pairs ++ [(k, v)]) = dict_set k v (dict_of pairs).
Proof. unfold dict_of. by rewrite foldl_snoc. Qed.

Lemma dict_of_keys_NoDup (pairs : list (string * V)) :
  NoDup (map fst (dict_of pairs)).
Proof.
  induction pairs as [| [k v] pairs IH] using rev_ind; [constructor |].
  rewrite dict_of_snoc, dict_set_keys. case_decide; [done |].
  apply NoDup_app. split; [done |]. split; [| apply NoDup_singleton].
  intros x Hx ->%list_elem_of_singleton. done.
Qed.

Lemma dict_of_keys (pairs : list (string * V)) k :
  k ∈ map fst (dict_of pairs) <-> k ∈ map fst pairs.
Proof.
  induction pairs as [| [k0 v] pairs IH] using rev_ind; [done |].
  rewrite dict_of_snoc, dict_set_keys, map_app, elem_of_app. cbn [map fst].
  rewrite list_elem_of_singleton, <- IH.
  case_decide as Hin; [| rewrite elem_of_app, list_elem_of_singleton; tauto].
  split; [tauto |]. intros [? | ->]; done.
Qed.

Lemma dict_of_get (pairs : list (string * V)) k :
  dict_get k (dict_of pairs) =
  snd <$> last (filter (fun kv => fst kv = k) pairs).
Proof.
  induction pairs as [| [k0 v] pairs IH] using rev_ind; [done |].
  rewrite dict_of_snoc, dict_get_set, filter_app, IH.
  rewrite filter_cons, filter_nil. cbn [fst].
  case_decide as E.
  - by rewrite last_snoc.
  - by rewrite app_nil_r.
Qed.

End Dict.

Lemma zip_keys_values (df : list sheet_row) :
  zip (map (fun r => before_underscore (fst r)) df) (map snd df) =
  map (fun r => (before_underscore (fst r), snd r)) df.
Proof. induction df as [| r df IH]; [done |]. cbn. by rewrite IH. Qed.

(** X18: The dictionary built from the sheet has no key twice; its keys are
    exactly the video names of the rows cut at their first underscore, so no
    key contains an underscore (cutting a key again changes nothing). *)
Theorem create_dictionary_one_entry_per_patient (df : list sheet_row) :
  let sync_dict := create_dictionary_from_excel df in
  NoDup (map fst sync_dict) /\
  (forall k, k ∈ map fst sync_dict <->
             exists r, r ∈ df /\ k = before_underscore (fst r)) /\
  (forall k, k ∈ map fst sync_dict -> before_underscore k = k).
Proof.
  intros sync_dict. subst sync_dict. unfold create_dictionary_from_excel.
  rewrite zip_keys_values.
  assert (forall k,
            k ∈ map fst (dict_of (map (fun r : sheet_row =>
                                         (before_underscore (fst r), snd r)) df))
            <-> exists r, r ∈ df /\ k = before_underscore (fst r)) as Hkeys.
  { intros k. rewrite dict_of_keys, map_map. cbn [fst].
    change (map (fun x : sheet_row => before_underscore (fst x)) df)
      with ((fun x : sheet_row => before_underscore (fst x)) <$> df).
    rewrite list_elem_of_fmap.
    split; intros (r & H1 & H2); exists r; done. }
  split; [apply dict_of_keys_NoDup |]. split; [exact Hkeys |].
  intros k (r & _ & ->)%Hkeys. apply before_underscore_idemp.
Qed.

(** X19: When several rows of the sheet give the same patient key, the
    dictionary holds the value columns of the last of them; a key that no row
    gives is absent. *)
Theorem create_dictionary_last_row_wins (df : list sheet_row) (k : string) :
  dict_get k (create_dictionary_from_excel df) =
  snd <$> last (filter (fun r => before_underscore (fst r) = k) df).
Proof.
  unfold create_dictionary_from_excel.
  rewrite zip_keys_values, dict_of_get.
  induction df as [| r df IH] using rev_ind; [done |].
  rewrite map_app, !filter_app. cbn [map]. rewrite !filter_cons, !filter_nil.
  cbn [fst]. case_decide as E.
  - by rewrite !last_snoc.
  - by rewrite !app_nil_r.
Qed.

(** *** The accelerometer file *)





(** X21: read_acc_data returns None when no file name starts with patient +
    '_'; when the matching file has no row at all, not even a header, it
    raises StopIteration (from next(csv_reader)) instead of returning None. *)
Theorem read_acc_data_missing_or_empty_file (patient : string)
    (file_names : list string) (csv_rows : string -> list (list string)) :
  (Forall (fun name => String.prefix (String.append patient "_") name = false)
          file_names ->
   read_acc_data patient file_names csv_rows = Done None) /\
  (forall file_name,
     List.find (fun name => String.prefix (String.append patient "_") name)
               file_names = Some file_name ->
     csv_rows file_name = [] ->
     read_acc_data patient file_names csv_rows = Fail StopIteration).
Proof.
  unfold read_acc_data. split.
  - intros Hnone.
    assert (List.find (fun name => String.prefix (String.append patient "_") name)
                      file_names = None) as ->; [| done].
    induction Hnone as [| name names Hname _ IH]; [done |].
    cbn [List.find]. by rewrite Hname.
  - intros file_name -> ->. done.
Qed.

Section Timeline.
Context `{PyInt}.

Lemma read_rows_marker (row : list string) (rows : list (list string))
    (sc : Z) (c l : list entry) :
  marker row -> sc < 3 ->
  read_rows (row :: rows) sc c l = read_rows rows (sc + 1) c l.
Proof.
  intros Hm Hsc. destruct row as [| row0 row]; [done |].
  injection Hm as ->. cbn [read_rows].
  destruct (Z.ltb_spec sc 3); [| lia]. done.
Qed.

Lemma read_rows_ignored (sec rows : list (list string)) (sc : Z)
    (c l : list entry) :
  Forall unmarked sec -> sc < 2 ->
  read_rows (sec ++ rows) sc c l = read_rows rows sc c l.
Proof.
  intros Hsec Hsc. induction Hsec as [| row sec Hrow _ IH]; [done |].
  cbn [app read_rows]. destruct row as [| row0 row]; [exact IH |].
  assert (String.eqb row0 "T" = false) as ->.
  { apply String.eqb_neq. intros ->. by apply Hrow. }
  rewrite andb_false_r.
  destruct (Z.eqb_spec sc 2); [lia |].
  destruct (Z.eqb_spec sc 3); [lia |]. exact IH.
Qed.

Lemma read_rows_chorea (sec rows : list (list string)) (es c l : list entry) :
  Forall2 (fun row e => annotation row /\ read_entry row = Done e) sec es ->
  read_rows (sec ++ rows) 2 c l = read_rows rows 2 (c ++ es) l.
Proof.
  intros Hsec. revert c.
  induction Hsec as [| row e sec es [[Hne Hrow] He] _ IH]; intros c.
  - by rewrite app_nil_r.
  - cbn [app read_rows]. destruct row as [| row0 row]; [done |].
    assert (String.eqb row0 "T" = false) as ->.
    { apply String.eqb_neq. intros ->. by apply Hrow. }
    rewrite andb_false_r. cbn [Z.eqb]. rewrite He. cbn.
    rewrite IH. by rewrite <- app_assoc.
Qed.

Lemma read_rows_labels (sec rows : list (list string)) (es c l : list entry) :
  Forall2 (fun row e => annotation row /\ read_entry row = Done e) sec es ->
  read_rows (sec ++ rows) 3 c l = read_rows rows 3 c (l ++ es).
Proof.
  intros Hsec. revert l.
  induction Hsec as [| row e sec es [[Hne Hrow] He] _ IH]; intros l.
  - by rewrite app_nil_r.
  - cbn [app read_rows]. destruct row as [| row0 row]; [done |].
    assert (String.eqb row0 "T" = false) as ->.
    { apply String.eqb_neq. intros ->. by apply Hrow. }
    cbn. rewrite He. rewrite IH. by rewrite <- app_assoc.
Qed.

Lemma read_rows_break (row : list string) (rows : list (list string))
    (c l : list entry) :
  marker row -> read_rows (row :: rows) 3 c l = Done (c, l).
Proof.
  intros Hm. destruct row as [| row0 row]; [done |].
  injection Hm as ->. done.
Qed.

(** X22: The loop over the timeline reads a file laid out as: rows, a 'T' row,
    rows, a 'T' row, severity rows, a 'T' row, activity rows, and then the end
    of the file or a fourth 'T' row followed by anything. It returns the
    severity rows as chorea_labels_by_frames and the activity rows as
    labels_by_frames, in order; what precedes the second 'T' row and what
    follows the fourth is not read. *)
Theorem read_rows_sections (preamble m1 first m2 second m3 third : _)
    (rest : list (list string)) (chorea_entries label_entries : list entry) :
  Forall unmarked preamble -> marker m1 ->
  Forall unmarked first -> marker m2 ->
  Forall2 (fun row e => annotation row /\ read_entry row = Done e)
          second chorea_entries ->
  marker m3 ->
  Forall2 (fun row e => annotation row /\ read_entry row = Done e)
          third label_entries ->
  rest = [] \/ (exists m4 ignored, marker m4 /\ rest = m4 :: ignored) ->
  read_rows (preamble ++ m1 :: first ++ m2 :: second ++ m3 :: third ++ rest)
            0 [] []
  = Done (chorea_entries, label_entries).
Proof.
  intros Hpre Hm1 Hfirst Hm2 Hsecond Hm3 Hthird Hrest.
  rewrite read_rows_ignored by (done || lia).
  rewrite read_rows_marker by (done || lia).
  rewrite read_rows_ignored by (done || lia).
  rewrite read_rows_marker by (done || lia).
  rewrite (read_rows_chorea second _ chorea_entries) by done.
  rewrite read_rows_marker by (done || lia).
  rewrite (read_rows_labels third _ label_entries) by done.
  destruct Hrest as [-> | (m4 & ignored & Hm4 & ->)].
  - done.
  - by rewrite read_rows_break.
Qed.

End Timeline.

Lemma slice_bound_le (k : Z) (len : nat) : (slice_bound k len <= len)%nat.
Proof. unfold slice_bound. destruct (Z.ltb_spec k 0); lia. Qed.

Lemma length_slice_assign (start stop v : Z) (xs : list Z) :
  length (slice_assign start stop v xs) = length xs.
Proof.
  unfold slice_assign.
  pose proof (slice_bound_le start (length xs)).
  pose proof (slice_bound_le stop (length xs)).
  rewrite !length_app, length_take, length_replicate, length_drop. lia.
Qed.

Lemma elem_of_slice_assign (start stop v x : Z) (xs : list Z) :
  x ∈ slice_assign start stop v xs -> x = v \/ x ∈ xs.
Proof.
  unfold slice_assign. rewrite !elem_of_app.
  intros [Hin | [Hin | Hin]].
  - right. by apply subseteq_take in Hin.
  - left. by apply elem_of_replicate in Hin as [-> _].
  - right. by apply subseteq_drop in Hin.
Qed.


Lemma for_each_invariant {S X : Type} (P : S -> Prop)
    (f : S -> X -> outcome S) (xs : list X) (s s' : S) :
  (forall s x s', f s x = Done s' -> P s -> P s') ->
  P s -> for_each f xs s = Done s' -> P s'.
Proof.
  intros Hstep. revert s. induction xs as [| x xs IH]; intros s Hs.
  - by intros [= <-].
  - cbn [for_each]. destruct (f s x) as [s1 | e] eqn:E; [| done].
    apply IH. by eapply Hstep.
Qed.


Section Labels.
Context `{PyInt}.

Lemma label_arrays_unfold (labels_by_frames chorea_labels_by_frames : list entry)
    (source target : Q) (labels chorea : list Z) :
  label_arrays labels_by_frames chorea_labels_by_frames source target
    = Done (Some (labels, chorea)) ->
  exists first last_labeled_frame name,
    last labels_by_frames = Some (first, last_labeled_frame, name) /\
    Qeq_bool source 0 = false /\
    let ratio := (target / source)%Q in
    let n := Qround_half_even (inject_Z last_labeled_frame * ratio) + 1 in
    0 <= n /\
    for_each (mark_walking ratio) labels_by_frames (replicate (Z.to_nat n) 0)
      = Done labels /\
    for_each (mark_chorea ratio) chorea_labels_by_frames
             (replicate (Z.to_nat n) (-1)) = Done chorea.
Proof.
  unfold label_arrays.
  destruct (last labels_by_frames) as [[[first lf] name] |]; [| done].
  destruct (Qeq_bool source 0); [done |].
  destruct (Z.ltb_spec (Qround_half_even (inject_Z lf * (target / source)) + 1) 0);
    [done |].
  destruct (for_each (mark_walking _) _ _) as [la |] eqn:El; [| done].
  cbn. destruct (for_each (mark_chorea _) _ _) as [ca |] eqn:Ec; [| done].
  cbn. intros [= <- <-]. exists first, lf, name. repeat split; done.
Qed.

End Labels.

Section LabelData.
Context `{PyInt}.

Lemma read_rows_few_markers (rows : list (list string)) (sc : Z)
    (c l : list entry) :
  sc + Z.of_nat (length (filter marker rows)) <= 1 ->
  read_rows rows sc c l = Done (c, l).
Proof.
  revert sc. induction rows as [| row rows IH]; intros sc Hsc; [done |].
  rewrite filter_cons in Hsc. cbn [read_rows].
  destruct row as [| row0 row].
  - rewrite decide_False in Hsc by done. by apply IH.
  - destruct (String.eqb_spec row0 "T") as [-> | Hne].
    + rewrite decide_True in Hsc by done. cbn [length] in Hsc.
      destruct (Z.ltb_spec sc 3); [| lia]. cbn [andb]. apply IH. lia.
    + rewrite decide_False in Hsc by (intros [= ?]; done).
      rewrite andb_false_r.
      destruct (Z.eqb_spec sc 2); [lia |].
      destruct (Z.eqb_spec sc 3); [lia |]. by apply IH.
Qed.

Lemma read_rows_no_labels (rows : list (list string)) (sc : Z)
    (c l c' l' : list entry) :
  sc + Z.of_nat (length (filter marker rows)) <= 2 ->
  read_rows rows sc c l = Done (c', l') -> l' = l.
Proof.
  revert sc c. induction rows as [| row rows IH]; intros sc c Hsc.
  - by intros [= _ <-].
  - rewrite filter_cons in Hsc. cbn [read_rows].
    destruct row as [| row0 row].
    + rewrite decide_False in Hsc by done. by apply IH.
    + destruct (String.eqb_spec row0 "T") as [-> | Hne].
      * rewrite decide_True in Hsc by done. cbn [length] in Hsc.
        destruct (Z.ltb_spec sc 3); [| lia]. cbn [andb]. apply IH. lia.
      * rewrite decide_False in Hsc by (intros [= ?]; done).
        rewrite andb_false_r.
        destruct (Z.eqb_spec sc 3); [lia |].
        destruct (Z.eqb_spec sc 2) as [Htwo | Htwo].
        -- destruct (read_entry (row0 :: row)) as [en |]; [| done].
           cbn. by apply IH.
        -- cbn. by apply IH.
Qed.

(** X23: read_label_data returns (None, None) when no timeline is found, and
    when the timeline has at most one 'T' row; with at most two 'T' rows it
    never returns arrays (it returns (None, None) or raises while reading the
    severity rows). *)
Theorem read_label_data_absent (source target : Q) :
  read_label_data None source target = Done None /\
  (forall rows, (length (filter marker rows) <= 1)%nat ->
     read_label_data (Some rows) source target = Done None) /\
  (forall rows r, (length (filter marker rows) <= 2)%nat ->
     read_label_data (Some rows) source target = Done r -> r = None).
Proof.
  split; [done |]. split.
  - intros rows Hm. unfold read_label_data.
    rewrite read_rows_few_markers by lia. done.
  - intros rows r Hm. unfold read_label_data.
    destruct (read_rows rows 0 [] []) as [[ce le] |] eqn:E; [| done].
    apply read_rows_no_labels in E; [| lia]. subst le. cbn.
    by intros [= <-].
Qed.

Lemma read_label_data_unfold (rows : list (list string)) (source target : Q)
    (labels chorea : list Z) :
  read_label_data (Some rows) source target = Done (Some (labels, chorea)) ->
  exists ce le,
    read_rows rows 0 [] [] = Done (ce, le) /\
    label_arrays le ce source target = Done (Some (labels, chorea)).
Proof.
  unfold read_label_data.
  destruct (read_rows rows 0 [] []) as [[ce le] |]; [| done].
  cbn. eauto.
Qed.

Lemma mark_walking_length (ratio : Q) (arr arr' : list Z) (e : entry) :
  mark_walking ratio arr e = Done arr' -> length arr' = length arr.
Proof.
  destruct e as [[f l] name]. unfold mark_walking.
  destruct (negb _); [done |].
  destruct (String.eqb name "walking"); intros [= <-]; [| done].
  apply length_slice_assign.
Qed.

Lemma mark_chorea_length (ratio : Q) (arr arr' : list Z) (e : entry) :
  mark_chorea ratio arr e = Done arr' -> length arr' = length arr.
Proof.
  destruct e as [[f l] name]. unfold mark_chorea.
  destruct (bool_decide _); cbn.
  - intros [= <-]. apply length_slice_assign.
  - destruct (to_int name); cbn; [| done].
    intros [= <-]. apply length_slice_assign.
Qed.

Lemma label_arrays_lengths (le ce : list entry) (source target : Q)
    (labels chorea : list Z) :
  label_arrays le ce source target = Done (Some (labels, chorea)) ->
  length labels = length chorea.
Proof.
  intros (f & lf & name & _ & _ & Hn & Hl & Hc)%label_arrays_unfold.
  cbv zeta in Hn, Hl, Hc.
  set (n := Z.to_nat (Qround_half_even (inject_Z lf * (target / source)) + 1))
    in *.
  apply (for_each_invariant (fun arr => length arr = n)) in Hl;
    [| intros s x s' Hs <-; by eapply mark_walking_length
     | by rewrite length_replicate].
  apply (for_each_invariant (fun arr => length arr = n)) in Hc;
    [| intros s x s' Hs <-; by eapply mark_chorea_length
     | by rewrite length_replicate].
  congruence.
Qed.

Lemma mark_walking_binary (ratio : Q) (arr arr' : list Z) (e : entry) :
  mark_walking ratio arr e = Done arr' ->
  (forall x, x ∈ arr -> x = 0 \/ x = 1) ->
  forall x, x ∈ arr' -> x = 0 \/ x = 1.
Proof.
  destruct e as [[f l] name]. unfold mark_walking.
  destruct (negb _); [done |].
  destruct (String.eqb name "walking"); intros [= <-] Harr x Hx; [| auto].
  apply elem_of_slice_assign in Hx as [-> | Hx]; auto.
Qed.

Lemma read_label_data_shape (timeline : option (list (list string)))
    (source target : Q) (labels chorea : list Z) :
  read_label_data timeline source target = Done (Some (labels, chorea)) ->
  length labels = length chorea /\
  forall x, x ∈ labels -> x = 0 \/ x = 1.
Proof.
  destruct timeline as [rows |]; [| done].
  intros (ce & le & _ & Harr)%read_label_data_unfold.
  split; [by eapply label_arrays_lengths |].
  apply label_arrays_unfold in Harr as (f & lf & name & _ & _ & Hn & Hl & _).
  cbv zeta in Hl.
  refine (for_each_invariant (fun arr => forall x, x ∈ arr -> x = 0 \/ x = 1)
            _ _ _ _ _ _ Hl).
  - intros s e s' Hs Hbin. by eapply mark_walking_binary.
  - intros x [-> _]%elem_of_replicate. by left.
Qed.

(** X24: When read_label_data returns arrays, the label array and the severity
    array have the same length and every label is 0 or 1: the code -9 that
    activity__dict gives to turning, stumbling and step ups is never written
    into the labels. *)
Theorem read_label_data_arrays (timeline : option (list (list string)))
    (source target : Q) (labels chorea : list Z) :
  read_label_data timeline source target = Done (Some (labels, chorea)) ->
  length labels = length chorea /\
  (forall x, x ∈ labels -> x = 0 \/ x = 1) /\
  (forall x, x ∈ labels -> x <> -9).
Proof.
  intros Hread.
  destruct (read_label_data_shape timeline source target labels chorea Hread)
    as [Hlen Hbin].
  split; [done |]. split; [done |].
  intros x Hx. destruct (Hbin x Hx) as [-> | ->]; done.
Qed.

End LabelData.


Lemma Qround_half_even_nonneg (q : Q) : (0 <= q)%Q -> 0 <= Qround_half_even q.
Proof.
  intros Hq. unfold Qround_half_even.
  assert (0 <= Qfloor q) as Hfl
    by (change 0 with (Qfloor 0); by apply Qfloor_resp_le).
  repeat case_match; lia.
Qed.


Section Walking.
Context `{PyInt}.


(** X26: With positive rates and non-negative last frames, read_label_data
    raises AssertionError as soon as one activity interval has a name that is
    not a key of activity__dict; no arrays are returned. *)
Theorem read_label_data_unknown_activity (rows : list (list string))
    (source target : Q) (ce le : list entry) (f l : Z) (name : string) :
  (0 < source)%Q -> (0 < target)%Q ->
  read_rows rows 0 [] [] = Done (ce, le) ->
  (forall f l name, (f, l, name) ∈ le -> 0 <= l) ->
  (f, l, name) ∈ le -> name ∉ map fst activity__dict ->
  read_label_data (Some rows) source target = Fail AssertionError.
Proof.
  intros Hs Ht Hrows Hpos Hin Hname.
  unfold read_label_data. rewrite Hrows. cbn.
  unfold label_arrays.
  destruct (last le) as [[[f1 lf] name1] |] eqn:Elast.
  2:{ apply last_None in Elast. subst le. by apply not_elem_of_nil in Hin. }
  rewrite SignalSpec.Qeq_bool_pos by done.
  assert (0 <= target / source)%Q as Hr.
  { apply Qlt_le_weak, Qlt_shift_div_l; [done |]. by rewrite Qmult_0_l. }
  assert (0 <= Qround_half_even (inject_Z lf * (target / source))) as Hn.
  { apply Qround_half_even_nonneg, Qmult_le_0_compat; [| done].
    change 0%Q with (inject_Z 0). rewrite <- Zle_Qle.
    apply (Hpos f1 lf name1). apply last_Some_elem_of in Elast. done. }
  destruct (Z.ltb_spec (Qround_half_even (inject_Z lf * (target / source)) + 1) 0);
    [lia |].
  assert (forall arr, for_each (mark_walking (target / source)) le arr
                      = Fail AssertionError) as ->; [| done].
  clear Elast Hpos Hrows.
  induction le as [| e le IH]; intros arr; [by apply not_elem_of_nil in Hin |].
  cbn [for_each]. destruct e as [[f0 l0] name0].
  destruct (decide (name0 ∈ map fst activity__dict)) as [Hknown | Hunknown].
  - apply elem_of_cons in Hin as [Heq | Hin]; [by simplify_eq |].
    unfold mark_walking at 1. rewrite bool_decide_eq_true_2 by done. cbn [negb].
    destruct (String.eqb name0 "walking"); by apply IH.
  - unfold mark_walking at 1. by rewrite bool_decide_eq_false_2.
Qed.

End Walking.

Section Main.
Context `{PyInt}.

Lemma main_loop_step (fs : files) (patient : string) (val : Q * Q * Q)
    (items : list (string * (Q * Q * Q))) (saved saved' : list archive) :
  main_loop fs ((patient, val) :: items) saved = Done saved' ->
  (labelled fs (patient, val) = false /\ main_loop fs items saved = Done saved')
  \/
  (exists acc label chorea,
     labelled fs (patient, val) = true /\
     read_acc_data patient (acc_file_names fs) (acc_csv_rows fs) = Done (Some acc) /\
     read_label_data (label_timeline fs patient) (snd val) ACC_SAMPLE_RATE
       = Done (Some (label, chorea)) /\
     main_loop fs items
       (saved ++ [(String.append patient ".npz",
                   sync_data acc label chorea (fst val) ACC_SAMPLE_RATE)])
       = Done saved').
Proof.
  cbn [main_loop]. destruct val as [[val0 val1] val2]. unfold labelled.
  cbn [fst snd].
  destruct (read_acc_data patient _ _) as [acc |]; [| done].
  destruct (read_label_data _ val2 ACC_SAMPLE_RATE) as [[[label chorea] |] |];
    [| by left | done].
  destruct acc as [acc |]; [| done].
  intros Hrest. right. exists acc, label, chorea. done.
Qed.

Lemma main_loop_well_formed (fs : files) (items : list (string * (Q * Q * Q)))
    (saved saved' : list archive) :
  Forall well_formed saved ->
  main_loop fs items saved = Done saved' ->
  Forall well_formed saved'.
Proof.
  revert saved. induction items as [| [patient val] items IH]; intros saved Hwf.
  - by intros [= <-].
  - intros [[_ Hrest] | (acc & label & chorea & _ & _ & Hlab & Hrest)]%main_loop_step.
    + by eapply IH.
    + eapply IH; [| exact Hrest].
      apply Forall_app. split; [done |]. apply Forall_singleton.
      unfold well_formed. cbn [snd].
      destruct (read_label_data_shape _ _ _ _ _ Hlab) as [Hlen Hbin].
      destruct (ReadDataSpec.sync_data_lengths acc label chorea (fst val)
                  ACC_SAMPLE_RATE) as (Hl & Hc & Ht & Ha).
      destruct (ReadDataSpec.sync_data_unfold acc label chorea (fst val)
                  ACC_SAMPLE_RATE) as (Hlu & _).
      cbv zeta in Hl, Hc, Ht, Ha, Hlu.
      rewrite Hl, Hc, Ht, Ha. repeat split; try lia.
      intros x Hx. rewrite Hlu in Hx. apply subseteq_drop in Hx.
      by apply Hbin.
Qed.

(** X27: When main finishes, every archive it saved holds label, severity and
    time arrays of one length, a signal that is not longer, and labels that
    are all 0 or 1. *)
Theorem main_archives_well_formed (fs : files) (saved : list archive) :
  main fs = Done saved -> Forall well_formed saved.
Proof. unfold main. by apply main_loop_well_formed. Qed.

Lemma main_loop_names (fs : files) (items : list (string * (Q * Q * Q)))
    (saved saved' : list archive) :
  main_loop fs items saved = Done saved' ->
  map fst saved' =
    map fst saved ++
    map (fun item => String.append (fst item) ".npz")
        (filter (fun item => labelled fs item) items) /\
  (forall item, item ∈ items -> labelled fs item ->
     exists acc, read_acc_data (fst item) (acc_file_names fs) (acc_csv_rows fs)
                 = Done (Some acc)).
Proof.
  revert saved. induction items as [| [patient val] items IH]; intros saved.
  - intros [= <-]. cbn. rewrite app_nil_r. split; [done |].
    intros item Hin. by apply not_elem_of_nil in Hin.
  - rewrite filter_cons.
    intros [[Hlab Hrest] | (acc & label & chorea & Hlab & Hacc & _ & Hrest)]%main_loop_step.
    + destruct (IH _ Hrest) as [Hnames Haccs].
      rewrite decide_False by (cbn beta; rewrite Hlab; exact id).
      split; [done |]. intros item [-> | Hin]%elem_of_cons Hitem.
      * rewrite Hlab in Hitem. done.
      * by apply Haccs.
    + destruct (IH _ Hrest) as [Hnames Haccs].
      rewrite decide_True by (cbn beta; rewrite Hlab; exact I).
      split.
      * rewrite Hnames, map_app, <- app_assoc. done.
      * intros item [-> | Hin]%elem_of_cons Hitem; [eauto | by apply Haccs].
Qed.

(** X28: When main finishes, the archives it saved are, in the order of the
    dictionary, patient + '.npz' for exactly the patients for which
    read_label_data returned arrays; and each of those patients had signal
    data (a patient with labels but no signal makes main raise TypeError). *)
Theorem main_saves_labelled_patients (fs : files) (saved : list archive) :
  main fs = Done saved ->
  let sync_dict := create_dictionary_from_excel (sync_sheet fs) in
  map fst saved =
    map (fun item => String.append (fst item) ".npz")
        (filter (fun item => labelled fs item) sync_dict) /\
  (forall item, item ∈ sync_dict -> labelled fs item ->
     exists acc, read_acc_data (fst item) (acc_file_names fs) (acc_csv_rows fs)
                 = Done (Some acc)).
Proof. unfold main. intros Hmain. by apply main_loop_names in Hmain. Qed.

End Main.

(** *** The readers at concrete inputs *)


Lemma example_chorea_rows :
  Forall2 (fun row e => annotation row /\ @read_entry decimal_int row = Done e)
    [ ["c"; "0"; "0"; "30"; "2"]; ["c"; "0"; "30"; "60"; "hided"] ]%string
    [ (0, 30, "2"%string); (30, 60, "hided"%string) ].
Proof. repeat constructor; done. Qed.

Lemma example_label_rows :
  Forall2 (fun row e => annotation row /\ @read_entry decimal_int row = Done e)
    [ ["a"; "0"; "0"; "30"; "standing"]; ["a"; "0"; "30"; "60"; "walking"];
      ["a"; "0"; "60"; "90"; "turning"] ]%string
    [ (0, 30, "standing"%string); (30, 60, "walking"%string);
      (60, 90, "turning"%string) ].
Proof. repeat constructor; done. Qed.

Lemma read_rows_sections_witness :
  @read_rows decimal_int example_timeline 0 [] [] =
  Done ([ (0, 30, "2"%string); (30, 60, "hided"%string) ],
        [ (0, 30, "standing"%string); (30, 60, "walking"%string);
          (60, 90, "turning"%string) ]).
Proof.
  apply (@read_rows_sections decimal_int
           [ ["video"; "P1"] ]%string
           ["T"; "tiers"]%string [ ["tier"; "chorea"]; [] ]%string
           ["T"; "notes"]%string
           [ ["c"; "0"; "0"; "30"; "2"]; ["c"; "0"; "30"; "60"; "hided"] ]%string
           ["T"; "activity"]%string
           [ ["a"; "0"; "0"; "30"; "standing"]; ["a"; "0"; "30"; "60"; "walking"];
             ["a"; "0"; "60"; "90"; "turning"] ]%string
           [ ["T"; "end"]; ["unread"] ]%string).
  - repeat constructor; discriminate.
  - reflexivity.
  - repeat constructor; discriminate.
  - reflexivity.
  - exact example_chorea_rows.
  - reflexivity.
  - exact example_label_rows.
  - right. exists ["T"; "end"]%string, [ ["unread"] ]%string. split; reflexivity.
Defined.


Lemma read_label_data_arrays_witness :
  exists labels chorea,
    @read_label_data decimal_int (Some example_timeline) 30 100
      = Done (Some (labels, chorea)) /\
    length labels = 301%nat /\ length chorea = 301%nat /\
    (forall x, x ∈ labels -> x = 0 \/ x = 1).
Proof.
  destruct (@read_label_data decimal_int (Some example_timeline) 30 100)
    as [[[labels chorea] |] |] eqn:Hread;
    [| vm_compute in Hread; discriminate | vm_compute in Hread; discriminate].
  exists labels, chorea. split; [reflexivity |].
  destruct (@read_label_data_arrays decimal_int (Some example_timeline) 30 100
              labels chorea Hread) as (Hlen & Hbin & _).
  assert (length labels = 301%nat) as Hn
    by (pose proof Hread as Hread'; vm_compute in Hread';
        injection Hread' as <- _; reflexivity).
  split; [exact Hn |]. split; [rewrite <- Hlen; exact Hn | exact Hbin].
Defined.


Lemma read_label_data_unknown_activity_witness :
  let rows := [ ["T"]; ["T"]; ["T"];
                ["a"; "0"; "0"; "30"; "walking"];
                ["a"; "0"; "30"; "60"; "dancing"] ]%string in
  (0 < 30)%Q /\ (0 < 100)%Q /\
("dancing"%string ∉ map fst activity__dict) /\
  @read_label_data decimal_int (Some rows) 30 100 = Fail AssertionError.
Proof.
  intros rows.
  assert (0 < 30)%Q as Hs by reflexivity.
  assert (0 < 100)%Q as Ht by reflexivity.
  assert ("dancing"%string ∉ map fst activity__dict) as Hname.
  { apply (bool_decide_eq_false_1 ("dancing"%string ∈ map fst activity__dict)).
    vm_compute. reflexivity. }
  split; [exact Hs |]. split; [exact Ht |]. split; [exact Hname |].
  apply (@read_label_data_unknown_activity decimal_int rows 30 100
           [] [ (0, 30, "walking"%string); (30, 60, "dancing"%string) ]
           30 60 "dancing" Hs Ht eq_refl).
  - intros f l name Hin. apply list_elem_of_In in Hin. simpl in Hin.
    intuition (simplify_eq; lia).
  - right; left.
  - exact Hname.
Defined.

Lemma main_archives_well_formed_witness :
  exists saved,
    @main decimal_int example_files = Done saved /\
    length saved = 1%nat /\ Forall well_formed saved.
Proof.
  destruct (@main decimal_int example_files) as [saved |] eqn:Hmain;
    [| vm_compute in Hmain; discriminate].
  exists saved. split; [reflexivity |]. split.
  - pose proof Hmain as Hmain'. vm_compute in Hmain'.
    injection Hmain' as <-. reflexivity.
  - exact (@main_archives_well_formed decimal_int example_files saved Hmain).
Defined.

Lemma main_saves_labelled_patients_witness :
  exists saved,
    @main decimal_int example_files = Done saved /\
    map fst saved = ["P1.npz"%string].
Proof.
  destruct (@main decimal_int example_files) as [saved |] eqn:Hmain;
    [| vm_compute in Hmain; discriminate].
  exists saved. split; [reflexivity |].
  destruct (@main_saves_labelled_patients decimal_int example_files saved Hmain)
    as [Hnames _].
  rewrite Hnames. vm_compute. reflexivity.
Defined.

End FilesSpec.
